(** * PLaSK GUI debugger panel: the persistent socket worker and its controller

    Shallow embedding of [gui/utils/texteditor/debugger.py]:
    - [PersistentSocketThread] (the worker owning the TCP connection),
    - [DebuggerPanel] (the controller owning at most one worker reference).

    The worker's [run] method is embedded as a step function over the
    program points of [run]; what the operating system and the remote peer do
    (the result of connecting, of each [sendall], of each [recv]) is an input
    of every step.  Calls of the controller thread on the shared worker
    object ([stop], [enqueue_command]) are steps of the same machine, so a
    script interleaves both threads.  The flag [running] and the list
    [send_queue] are read by the worker only at the head of an iteration, so
    interleaving at the granularity of whole iterations loses no behaviour. *)

From Stdlib Require Import List String Ascii Bool Arith ZArith Lia.
From Stdlib Require Import Strings.Byte DecimalString.
Import ListNotations.
Local Open Scope string_scope.
Local Open Scope list_scope.

(** ** Data *)

(** Python [bytes]. *)
Definition bytes := list byte.

(** The value [json.loads] returns: [None], [bool], [int], [float], [str],
    [list] or [dict].  A [dict] keeps the insertion order of its keys, which
    [update_vars] iterates over, so it is an association list.  A float is
    kept as its literal. *)
#[warnings="-register-all"]
Inductive json : Type :=
| JNull
| JBool (b : bool)
| JInt (n : Z)
| JFloat (literal : string)
| JStr (s : string)
| JArr (items : list json)
| JObj (members : list (string * json)).

Definition is_object (v : json) : bool :=
  match v with JObj _ => true | _ => false end.

(** The four Qt signals of the worker that reach the controller:
    [connected_ok], [vars_received], [error] and [closed]. *)
Inductive event : Type :=
| EConnectedOk
| EVarsReceived (vars_dict : json)
| EError (msg : string)
| EClosed.

(** The texts carried by the single [error] signal. *)
Definition connection_failed (e : string) : string := "Connection failed: " ++ e.
Definition send_error (e : string) : string := "Send error: " ++ e.
Definition json_decode_error (e : string) : string := "JSON decode error: " ++ e.
Definition socket_error (e : string) : string := "Socket error: " ++ e.

(** The event names of the specification, read off the [error] text. *)
Definition error_with (pre : string) (ev : event) : bool :=
  match ev with EError msg => prefix pre msg | _ => false end.

Definition is_ConnectionError : event -> bool := error_with "Connection failed: ".
Definition is_SendError : event -> bool := error_with "Send error: ".
Definition is_DecodeError : event -> bool := error_with "JSON decode error: ".
Definition is_SocketError : event -> bool := error_with "Socket error: ".

Definition is_ConnectedOk (ev : event) : bool :=
  match ev with EConnectedOk => true | _ => false end.
Definition is_Closed (ev : event) : bool :=
  match ev with EClosed => true | _ => false end.
Definition is_SnapshotReceived (ev : event) : bool :=
  match ev with EVarsReceived _ => true | _ => false end.

Definition count (f : event -> bool) (evs : list event) : nat :=
  List.length (filter f evs).

(** The socket object as far as the worker uses it: every successful
    [sendall] is one entry of [sent]; [close] sets [is_closed]. *)
Record sock : Type := mkSock {
  sent : list bytes;
  is_closed : bool
}.

Definition fresh_sock : sock := mkSock [] false.

(** The program point [run] has reached, with the names of the
    specification's connection states. *)
Inductive conn_state : Type :=
| Disconnected   (* constructed, [start] not called *)
| Connecting     (* started, [connect_socket] not finished *)
| Connected      (* at the head of the [while] loop *)
| Closed         (* [run] returned after the loop *)
| Failed.        (* [run] returned after a failed connect *)

(** The fields of a [PersistentSocketThread] object, and [state], the
    program point of its thread. *)
Record thread : Type := mkThread {
  host : string;
  port : Z;
  socket : option sock;
  running : bool;
  connected : bool;
  send_queue : list bytes;
  state : conn_state
}.

Definition set_socket (s : option sock) (t : thread) : thread :=
  mkThread (host t) (port t) s (running t) (connected t) (send_queue t) (state t).
Definition set_running (b : bool) (t : thread) : thread :=
  mkThread (host t) (port t) (socket t) b (connected t) (send_queue t) (state t).
Definition set_connected (b : bool) (t : thread) : thread :=
  mkThread (host t) (port t) (socket t) (running t) b (send_queue t) (state t).
Definition set_send_queue (q : list bytes) (t : thread) : thread :=
  mkThread (host t) (port t) (socket t) (running t) (connected t) q (state t).
Definition set_state (st : conn_state) (t : thread) : thread :=
  mkThread (host t) (port t) (socket t) (running t) (connected t) (send_queue t) st.

(** What the outside world answers. *)
Inductive connect_outcome : Type :=
| ConnectOk                        (* both calls of the [try] succeed *)
| ConnectRaises (e : string)       (* [socket.create_connection] raises *)
| SetTimeoutRaises (e : string).   (* [settimeout] raises on the new socket *)

Inductive send_outcome : Type :=
| SendOk
| SendRaises (e : string).

(** [recv] returns bytes, raises [socket.timeout], or raises something else.
    It returns the empty bytes object when the peer has closed its end of
    the connection in an orderly way. *)
Inductive recv_outcome : Type :=
| RecvData (data : bytes)
| RecvTimeout
| RecvRaises (e : string).

Definition peer_closed : recv_outcome := RecvData [].

(** An iteration whose [sendall] succeeds and whose [recv] does not raise
    anything but a timeout. *)
Definition healthy (sr : send_outcome * recv_outcome) : bool :=
  match sr with
  | (SendOk, RecvRaises _) => false
  | (SendOk, _) => true
  | (SendRaises _, _) => false
  end.

(** The text of the [AttributeError] Python raises for a method call on
    [None]. *)
Definition none_has_no (attr : string) : string :=
  "'NoneType' object has no attribute '" ++ attr ++ "'".

(** One step of the worker's own thread. *)
Inductive io_step : Type :=
| Connect (o : connect_outcome)
| Tick (s : send_outcome) (r : recv_outcome).

(** A call of the controller thread on the worker object. *)
Inductive call : Type :=
| CallStop
| CallEnqueue (cmd : bytes).

Inductive action : Type :=
| Io (s : io_step)
| Call (c : call).

(** ** A small writer monad for the code that emits signals *)

Definition Emit (A : Type) : Type := A * list event.

Definition ret {A : Type} (a : A) : Emit A := (a, []).

Definition bind {A B : Type} (m : Emit A) (k : A -> Emit B) : Emit B :=
  let (a, evs) := m in
  let (b, evs') := k a in
  (b, evs ++ evs').

Definition emit (ev : event) : Emit unit := (tt, [ev]).

Notation "x <- m ;; k" := (bind m (fun x => k))
  (at level 61, m at next level, right associativity).
Notation "m ;;; k" := (bind m (fun _ => k))
  (at level 61, right associativity).

(** The loop body either falls through to the next test of [self.running]
    or leaves the loop with [break]. *)
Inductive flow : Type := Next | Break.

Section Worker.

(** [json.loads(data.decode("utf-8"))]: the decoded document, or the text of
    the exception either call raised. *)
Variable json_loads : bytes -> string + json.

(** [__init__] *)
Definition new_thread (h : string) (p : Z) : thread :=
  mkThread h p None true false [] Disconnected.

(** [QThread.start], called once, right after construction. *)
Definition start (t : thread) : thread :=
  match state t with
  | Disconnected => set_state Connecting t
  | _ => t
  end.

Definition enqueue_command (cmd : bytes) (t : thread) : thread :=
  set_send_queue (send_queue t ++ [cmd]) t.

Definition stop (t : thread) : thread := set_running false t.

Definition connect_socket (o : connect_outcome) (t : thread) : Emit thread :=
  match o with
  | ConnectOk =>
      let t := set_socket (Some fresh_sock) t in
      let t := set_connected true t in
      emit EConnectedOk ;;; ret t
  | ConnectRaises e =>
      emit (EError (connection_failed e)) ;;;
      ret (set_connected false t)
  | SetTimeoutRaises e =>
      let t := set_socket (Some fresh_sock) t in
      emit (EError (connection_failed e)) ;;;
      ret (set_connected false t)
  end.

(** [self.socket.sendall(cmd)]: the thread after the call, or the text of
    the exception. *)
Definition sendall (cmd : bytes) (o : send_outcome) (t : thread) : string + thread :=
  match socket t with
  | None => inl (none_has_no "sendall")
  | Some s =>
      match o with
      | SendOk => inr (set_socket (Some (mkSock (sent s ++ [cmd]) (is_closed s))) t)
      | SendRaises e => inl e
      end
  end.

(** Lines 51-57: send one queued command. *)
Definition send_queued (o : send_outcome) (t : thread) : Emit (flow * thread) :=
  match send_queue t with
  | [] => ret (Next, t)
  | cmd :: rest =>
      let t := set_send_queue rest t in
      match sendall cmd o t with
      | inr t' => ret (Next, t')
      | inl e => emit (EError (send_error e)) ;;; ret (Break, t)
      end
  end.

(** Lines 60-73: one receive attempt. *)
Definition receive (r : recv_outcome) (t : thread) : Emit flow :=
  match socket t with
  | None => emit (EError (socket_error (none_has_no "recv"))) ;;; ret Break
  | Some _ =>
      match r with
      | RecvData [] => ret Next
      | RecvData data =>
          match json_loads data with
          | inr vars_dict => emit (EVarsReceived vars_dict) ;;; ret Next
          | inl e => emit (EError (json_decode_error e)) ;;; ret Next
          end
      | RecvTimeout => ret Next
      | RecvRaises e => emit (EError (socket_error e)) ;;; ret Break
      end
  end.

(** The body of the [while] loop. *)
Definition loop_body (s : send_outcome) (r : recv_outcome) (t : thread)
  : Emit (flow * thread) :=
  ft <- send_queued s t ;;
  match fst ft with
  | Break => ret ft
  | Next => f <- receive r (snd ft) ;; ret (f, snd ft)
  end.

(** Lines 77-83: close the socket, ignoring what [close] raises, and emit
    [closed]. *)
Definition teardown (t : thread) : Emit thread :=
  let t :=
    match socket t with
    | Some s => set_socket (Some (mkSock (sent s) true)) t
    | None => t
    end in
  emit EClosed ;;; ret (set_state Closed t).

(** One step of [run], by program point. *)
Definition io (a : io_step) (t : thread) : Emit thread :=
  match state t, a with
  | Connecting, Connect o =>
      t <- connect_socket o t ;;
      if connected t then ret (set_state Connected t)
      else ret (set_state Failed t)
  | Connected, Tick s r =>
      if running t then
        ft <- loop_body s r t ;;
        match fst ft with
        | Next => ret (snd ft)
        | Break => teardown (snd ft)
        end
      else teardown t
  | _, _ => ret t
  end.

Definition apply_call (c : call) (t : thread) : thread :=
  match c with
  | CallStop => stop t
  | CallEnqueue cmd => enqueue_command cmd t
  end.

Definition step (a : action) (t : thread) : Emit thread :=
  match a with
  | Io s => io s t
  | Call c => ret (apply_call c t)
  end.

Fixpoint exec (acts : list action) (t : thread) : Emit thread :=
  match acts with
  | [] => ret t
  | a :: rest => t <- step a t ;; exec rest t
  end.

(** [run] from start to the end of a finite script of outcomes, with no
    interference of the controller. *)
Definition iterations (ticks : list (send_outcome * recv_outcome)) : list action :=
  map (fun sr => Io (Tick (fst sr) (snd sr))) ticks.

Definition run (o : connect_outcome) (ticks : list (send_outcome * recv_outcome))
    (t : thread) : Emit thread :=
  exec (Io (Connect o) :: iterations ticks) t.

(** What has been written to the socket, one entry per write. *)
Definition wire (t : thread) : list bytes :=
  match socket t with
  | Some s => sent s
  | None => []
  end.

(** A thread that is not executing [run]. *)
Definition idle (t : thread) : Prop :=
  state t = Disconnected \/ state t = Closed \/ state t = Failed.

(** A thread at the head of the loop, with its flag set and its socket
    open, as [connect_socket] leaves it. *)
Definition looping (t : thread) : Prop :=
  state t = Connected /\ running t = true /\ exists sk, socket t = Some sk.

(** The thread after the send part of an iteration whose [sendall], if
    any, succeeded. *)
Definition sent_one (t : thread) : thread :=
  match send_queue t, socket t with
  | cmd :: rest, Some sk =>
      set_socket (Some (mkSock (sent sk ++ [cmd]) (is_closed sk)))
        (set_send_queue rest t)
  | _, _ => t
  end.

(** The shape of a trace that has reached [closed]: exactly one, and last. *)
Definition ends_closed (evs : list event) : Prop :=
  exists before, evs = before ++ [EClosed] /\ count is_Closed before = 0.

(** The send part of an iteration with outcome [s] does not leave the loop. *)
Definition send_passes (s : send_outcome) (t : thread) : Prop :=
  send_queue t = [] \/ s = SendOk.

End Worker.

(** ** The controller *)

(** The state of a [DebuggerPanel]: the two input fields, the rows of
    [panel_widget], whether the three gated buttons are enabled, and the
    reference to the worker.  The worker object is shared with the worker's
    thread: the object lives in this field, and a step of the worker's thread
    updates it in place (see [sys_step]). *)
Record panel : Type := mkPanel {
  host_input : string;
  port_input : string;
  panel_widget : list string;
  next_break_button : bool;
  next_line_button : bool;
  stop_button : bool;
  socket_thread : option thread
}.

Definition addItem (row : string) (p : panel) : panel :=
  mkPanel (host_input p) (port_input p) (panel_widget p ++ [row])
    (next_break_button p) (next_line_button p) (stop_button p) (socket_thread p).
Definition clear (p : panel) : panel :=
  mkPanel (host_input p) (port_input p) []
    (next_break_button p) (next_line_button p) (stop_button p) (socket_thread p).
Definition setEnabled (b : bool) (p : panel) : panel :=
  mkPanel (host_input p) (port_input p) (panel_widget p) b b b (socket_thread p).
Definition set_socket_thread (t : option thread) (p : panel) : panel :=
  mkPanel (host_input p) (port_input p) (panel_widget p)
    (next_break_button p) (next_line_button p) (stop_button p) t.

(** [__init__] *)
Definition new_panel : panel :=
  mkPanel "127.0.0.1" "5000" [] false false false None.

Definition newline : string := String (ascii_of_nat 10) EmptyString.

(** The three wire commands, each ending in a line feed. *)
Definition NEXT : bytes := list_byte_of_string "NEXT" ++ [x0a].
Definition STEP : bytes := list_byte_of_string "STEP" ++ [x0a].
Definition STOP : bytes := list_byte_of_string "STOP" ++ [x0a].

Inductive button : Type :=
| ConnectButton
| NextBreakButton
| NextLineButton
| StopButton.

(** The worker's queued signals wait in [inbox] until the controller's event
    loop delivers them, oldest first. *)
Record system : Type := mkSystem {
  ui : panel;
  inbox : list event
}.

Inductive sys_action : Type :=
| Click (b : button)      (* the user presses a button *)
| Worker (s : io_step)    (* the worker's thread makes one step *)
| Deliver.                (* the event loop runs the slot of the oldest signal *)

Section Panel.

Variable json_loads : bytes -> string + json.

(** [json.dumps(value, indent=2)] *)
Variable json_dumps : json -> string.

(** [int(text)]: [None] where Python raises [ValueError]. *)
Variable int_of_text : string -> option Z.

(** [str.strip] *)
Variable strip : string -> string.

Definition connect_debugger (p : panel) : panel :=
  let h := strip (host_input p) in
  match int_of_text (port_input p) with
  | None => addItem "Error: Port must be an integer." p
  | Some prt =>
      match socket_thread p with
      | Some _ => addItem "Already connected." p
      | None =>
          let p := addItem "Connecting..." p in
          set_socket_thread (Some (start (new_thread h prt))) p
      end
  end.

Definition send_cmd (cmd : bytes) (p : panel) : panel :=
  match socket_thread p with
  | Some t =>
      if connected t then set_socket_thread (Some (enqueue_command cmd t)) p
      else addItem "Not connected." p
  | None => addItem "Not connected." p
  end.

(** Line 179, [self.socket_thread.stop()]. *)
Definition call_stop (p : panel) : panel :=
  match socket_thread p with
  | Some t => set_socket_thread (Some (stop t)) p
  | None => p
  end.

(** The two statements under the [if] of [stop_debugger], lines 178 and
    179, in program order.  The worker's thread may run between them. *)
Definition stop_debugger_body : list (panel -> panel) :=
  [send_cmd STOP; call_stop].

Definition run_statements (body : list (panel -> panel)) (p : panel) : panel :=
  fold_left (fun q statement => statement q) body p.

Definition stop_debugger (p : panel) : panel :=
  match socket_thread p with
  | Some _ => run_statements stop_debugger_body p
  | None => p
  end.

Definition on_connected (p : panel) : panel :=
  setEnabled true (addItem "Connected to debugger." p).

(** The row [update_vars] adds for one member of the snapshot. *)
Definition row_of (kv : string * json) : string :=
  (fst kv ++ ":" ++ newline ++ json_dumps (snd kv))%string.

(** [vars_data.items()] exists for a [dict] only; for any other value the
    slot raises after [clear]. *)
Definition update_vars (vars_data : json) (p : panel) : panel :=
  let p := clear p in
  match vars_data with
  | JObj members => fold_left (fun p kv => addItem (row_of kv) p) members p
  | _ => p
  end.

Definition show_error (msg : string) (p : panel) : panel :=
  addItem ("Error: " ++ msg)%string p.

Definition on_closed (p : panel) : panel :=
  let p := addItem "Debugger connection closed." p in
  let p := setEnabled false p in
  set_socket_thread None p.

(** The four connections [connect_debugger] makes, lines 164-167. *)
Definition deliver (ev : event) (p : panel) : panel :=
  match ev with
  | EConnectedOk => on_connected p
  | EVarsReceived vars_dict => update_vars vars_dict p
  | EError msg => show_error msg p
  | EClosed => on_closed p
  end.

(** A disabled button does not emit [clicked]. *)
Definition click (b : button) (p : panel) : panel :=
  match b with
  | ConnectButton => connect_debugger p
  | NextBreakButton => if next_break_button p then send_cmd NEXT p else p
  | NextLineButton => if next_line_button p then send_cmd STEP p else p
  | StopButton => if stop_button p then stop_debugger p else p
  end.

Definition sys_step (a : sys_action) (s : system) : system :=
  match a with
  | Click b => mkSystem (click b (ui s)) (inbox s)
  | Worker a =>
      match socket_thread (ui s) with
      | Some t =>
          let (t', evs) := io json_loads a t in
          mkSystem (set_socket_thread (Some t') (ui s)) (inbox s ++ evs)
      | None => s
      end
  | Deliver =>
      match inbox s with
      | ev :: rest => mkSystem (deliver ev (ui s)) rest
      | [] => s
      end
  end.

Definition sys_exec (acts : list sys_action) (s : system) : system :=
  fold_left (fun s a => sys_step a s) acts s.

Definition new_system : system := mkSystem new_panel [].

End Panel.

(** ** Traces, queues and reachable states *)

(** The commands a script passes to [enqueue_command], in order. *)
Definition enqueued (acts : list action) : list bytes :=
  flat_map (fun a => match a with
                     | Call (CallEnqueue cmd) => [cmd]
                     | _ => []
                     end) acts.

(** [close] has been called on the worker's socket. *)
Definition socket_closed (t : thread) : bool :=
  match socket t with
  | Some s => is_closed s
  | None => false
  end.

(** The signals of the loop: snapshots and decode errors in any number, then
    nothing more, or [closed], or a send or socket error followed by
    [closed]. *)
Fixpoint loop_trace (evs : list event) : bool :=
  match evs with
  | [] => true
  | EVarsReceived _ :: rest => loop_trace rest
  | EError msg :: rest =>
      if prefix "JSON decode error: " msg then loop_trace rest
      else (prefix "Send error: " msg || prefix "Socket error: " msg)
           && match rest with [EClosed] => true | _ => false end
  | EClosed :: rest => match rest with [] => true | _ => false end
  | EConnectedOk :: _ => false
  end.

(** The signals of a worker from [start] on: nothing yet, or the one error
    of a failed connect, or [connected_ok] followed by the signals of the
    loop. *)
Definition lifecycle_trace (evs : list event) : bool :=
  match evs with
  | [] => true
  | EError msg :: rest =>
      prefix "Connection failed: " msg && match rest with [] => true | _ => false end
  | EConnectedOk :: rest => loop_trace rest
  | _ => false
  end.

(** Neither [connected_ok] nor [closed]. *)
Definition plain (ev : event) : bool :=
  negb (is_ConnectedOk ev || is_Closed ev).

Definition buttons (p : panel) : bool * bool * bool :=
  (next_break_button p, next_line_button p, stop_button p).

(** What the controller can see of its worker: the program point and the
    [connected] flag. *)
Definition worker_view (p : panel) : option (conn_state * bool) :=
  option_map (fun t => (state t, connected t)) (socket_thread p).

(** How the worker's program point, the signals not yet delivered and the
    gated buttons go together in a state of the system. *)
Definition consistent (s : system) : Prop :=
  match socket_thread (ui s) with
  | None => inbox s = [] /\ buttons (ui s) = (false, false, false)
  | Some t =>
      match state t with
      | Disconnected => False
      | Connecting => inbox s = [] /\ buttons (ui s) = (false, false, false)
      | Failed =>
          forallb plain (inbox s) = true /\ buttons (ui s) = (false, false, false)
      | Connected =>
          connected t = true /\
          ((exists rest, inbox s = EConnectedOk :: rest /\
                         forallb plain rest = true /\
                         buttons (ui s) = (false, false, false)) \/
           (forallb plain (inbox s) = true /\ buttons (ui s) = (true, true, true)))
      | Closed =>
          connected t = true /\
          ((exists mid, inbox s = EConnectedOk :: mid ++ [EClosed] /\
                        forallb plain mid = true /\
                        buttons (ui s) = (false, false, false)) \/
           (exists mid, inbox s = mid ++ [EClosed] /\
                        forallb plain mid = true /\
                        buttons (ui s) = (true, true, true)))
      end
  end.


(** ** Sample library functions, to run the model on concrete inputs *)

Module Sample.

(** The bytes of the document that maps x to 1, and of the array holding 1. *)
Definition doc_x1 : bytes := [x7b; x22; x78; x22; x3a; x20; x31; x7d].
Definition doc_arr1 : bytes := list_byte_of_string "[1]".
Definition truncated : bytes := [x7b; x22; x78].

(** Knows the two documents above. *)
Definition json_loads (data : bytes) : string + json :=
  if list_eq_dec Byte.byte_eq_dec data doc_x1 then
    inr (JObj [("x", JInt 1)])
  else if list_eq_dec Byte.byte_eq_dec data doc_arr1 then
    inr (JArr [JInt 1])
  else inl "Expecting value: line 1 column 1 (char 0)".

Definition json_dumps (v : json) : string :=
  match v with
  | JNull => "null"
  | JBool true => "true"
  | JBool false => "false"
  | JInt n => NilZero.string_of_int (Z.to_int n)
  | _ => "..."
  end.

Fixpoint digits (s : string) (acc : Z) : option Z :=
  match s with
  | EmptyString => Some acc
  | String c rest =>
      let n := nat_of_ascii c in
      if (48 <=? n)%nat && (n <=? 57)%nat
      then digits rest (10 * acc + Z.of_nat (n - 48))
      else None
  end.

(** Unsigned decimal numerals only. *)
Definition int_of_text (s : string) : option Z :=
  match s with
  | EmptyString => None
  | _ => digits s 0
  end.

Definition strip (s : string) : string := s.

(** A worker right after [start], and one at the head of its loop. *)
Definition started : thread := start (new_thread "127.0.0.1" 5000).
Definition in_loop : thread :=
  mkThread "127.0.0.1" 5000 (Some fresh_sock) true true [] Connected.

(** A worker that left its loop. *)
Definition finished : thread :=
  mkThread "127.0.0.1" 5000 (Some (mkSock [] true)) false true [] Closed.

End Sample.

(** ** Properties of the worker *)

Section WorkerProperties.

Variable json_loads : bytes -> string + json.

Ltac unfold_run :=
  unfold step, io, loop_body, send_queued, receive, teardown,
    connect_socket, sendall, apply_call, stop, enqueue_command,
    bind, ret, emit in *.

Local Abbreviation io := (io json_loads).
Local Abbreviation step := (step json_loads).
Local Abbreviation exec := (exec json_loads).
Local Abbreviation run := (run json_loads).

Lemma prefix_app : forall pre e, prefix pre (pre ++ e)%string = true.
Proof.
  induction pre as [|c pre IH]; intros e; cbn.
  - destruct e; reflexivity.
  - destruct (ascii_dec c c) as [_|N]; [apply IH | contradiction].
Qed.

Lemma exec_app : forall a b t,
  exec (a ++ b) t =
  (fst (exec b (fst (exec a t))), snd (exec a t) ++ snd (exec b (fst (exec a t)))).
Proof.
  induction a as [|x a IH]; intros b t; cbn.
  - destruct (exec b t); reflexivity.
  - unfold bind. destruct (step x t) as [t1 e1]. rewrite IH.
    destruct (exec a t1) as [t2 e2]; cbn.
    destruct (exec b t2) as [t3 e3]; cbn.
    now rewrite app_assoc.
Qed.

Lemma exec_cons : forall a rest t,
  exec (a :: rest) t =
  (fst (exec rest (fst (step a t))), snd (step a t) ++ snd (exec rest (fst (step a t)))).
Proof.
  intros a rest t; cbn. unfold bind.
  destruct (step a t) as [t1 e1]; cbn. now destruct (exec rest t1).
Qed.

Lemma step_idle : forall a t, idle t ->
  snd (step a t) = [] /\ idle (fst (step a t)) /\
  socket (fst (step a t)) = socket t /\ state (fst (step a t)) = state t.
Proof.
  intros a t H. destruct a as [[o|s r]|[|cmd]]; unfold idle in *; unfold_run;
    destruct t as [h p sk rn cn q st]; cbn in *;
    destruct H as [H|[H|H]]; subst; cbn; auto.
Qed.

Lemma exec_idle : forall acts t, idle t ->
  snd (exec acts t) = [] /\ socket (fst (exec acts t)) = socket t /\
  state (fst (exec acts t)) = state t.
Proof.
  induction acts as [|a acts IH]; intros t H.
  - cbn; auto.
  - rewrite exec_cons; cbn.
    destruct (step_idle a t H) as (E & I & S & St).
    destruct (IH _ I) as (E' & S' & St').
    rewrite E, E', S', St'; auto.
Qed.

Lemma step_io : forall x t, step (Io x) t = io x t.
Proof. reflexivity. Qed.

Lemma step_call : forall c t, step (Call c) t = (apply_call c t, []).
Proof. reflexivity. Qed.

Lemma io_idle : forall x t, idle t -> io x t = (t, []).
Proof.
  intros x t H. unfold_run.
  destruct H as [H|[H|H]]; rewrite H; destruct x; reflexivity.
Qed.

Lemma exec_iterations_idle : forall ticks t, idle t ->
  exec (iterations ticks) t = (t, []).
Proof.
  induction ticks as [|sr ticks IH]; intros t H; [reflexivity|].
  unfold iterations in *; cbn [map]. rewrite exec_cons.
  rewrite step_io, io_idle by assumption. cbn [fst snd].
  rewrite IH by assumption. reflexivity.
Qed.

Lemma run_unfold : forall o ticks t,
  run o ticks t =
  (fst (exec (iterations ticks) (fst (io (Connect o) t))),
   snd (io (Connect o) t) ++ snd (exec (iterations ticks) (fst (io (Connect o) t)))).
Proof. intros. unfold run. now rewrite exec_cons. Qed.

(** *** Connect failure *)

(** C3. A connect attempt on which [socket.create_connection] raises emits
    exactly one [error] signal, the one reporting the failed connection, and
    neither [connected_ok] nor [closed], whatever the outside world would
    answer afterwards; the thread ends in [Failed] without an iteration of
    the loop: nothing is written and the queue is left as it was. *)
Theorem connect_failure_emits_one_error :
  forall (t : thread) (e : string) (ticks : list (send_outcome * recv_outcome)),
    state t = Connecting ->
    let res := run (ConnectRaises e) ticks t in
    snd res = [EError (connection_failed e)] /\
    count is_ConnectionError (snd res) = 1 /\
    count is_ConnectedOk (snd res) = 0 /\
    count is_Closed (snd res) = 0 /\
    state (fst res) = Failed /\
    wire (fst res) = wire t /\
    send_queue (fst res) = send_queue t.
Proof.
  intros t e ticks Ht res. subst res. rewrite run_unfold.
  assert (S1 : io (Connect (ConnectRaises e)) t =
               (set_state Failed (set_connected false t),
                [EError (connection_failed e)])).
  { unfold_run. rewrite Ht. reflexivity. }
  rewrite S1; cbn [fst snd].
  rewrite exec_iterations_idle by (right; right; reflexivity).
  cbn [fst snd app].
  assert (P : is_ConnectionError (EError (connection_failed e)) = true)
    by apply prefix_app.
  unfold count; cbn [filter]. rewrite P.
  repeat split.
Qed.


(** *** One iteration of the loop *)

Lemma looping_sent_one : forall t, looping t ->
  looping (sent_one t) /\
  send_queue (sent_one t) = tl (send_queue t) /\
  wire (sent_one t) = wire t ++ firstn 1 (send_queue t).
Proof.
  intros [h p sk rn cn q st] (S & R & sk' & K); cbn in *; subst.
  unfold sent_one, looping, wire; cbn.
  destruct q as [|cmd rest]; cbn.
  - rewrite app_nil_r. repeat split. now exists sk'.
  - repeat split. eexists; reflexivity.
Qed.

(** What one iteration does when the send part does not fail. *)
Lemma tick_reads : forall s r t, looping t -> send_passes s t ->
  io (Tick s r) t =
  match r with
  | RecvData [] => (sent_one t, [])
  | RecvData data =>
      match json_loads data with
      | inr v => (sent_one t, [EVarsReceived v])
      | inl e => (sent_one t, [EError (json_decode_error e)])
      end
  | RecvTimeout => (sent_one t, [])
  | RecvRaises e =>
      (fst (teardown (sent_one t)), [EError (socket_error e); EClosed])
  end.
Proof.
  intros s r [h p sk rn cn q st] (S & R & sk' & K) P; cbn in *; subst.
  unfold send_passes in P; cbn in P.
  unfold sent_one; unfold_run; cbn.
  destruct q as [|cmd rest]; cbn.
  - destruct r as [[|b d]| |e]; cbn; try reflexivity.
    destruct (json_loads (b :: d)); reflexivity.
  - destruct P as [P| ->]; [discriminate|]. cbn.
    destruct r as [[|b d]| |e]; cbn; try reflexivity.
    destruct (json_loads (b :: d)); reflexivity.
Qed.

(** A failing [sendall] leaves the loop before the receive. *)
Lemma tick_send_fails : forall e r t cmd rest, looping t ->
  send_queue t = cmd :: rest ->
  io (Tick (SendRaises e) r) t =
  (fst (teardown (set_send_queue rest t)), [EError (send_error e); EClosed]).
Proof.
  intros e r [h p sk rn cn q st] cmd rest (S & R & sk' & K) Q; cbn in *; subst.
  unfold_run; cbn. reflexivity.
Qed.

(** *** Peer closure *)

Lemma peer_closed_iterations : forall n t, looping t -> send_queue t = [] ->
  exec (iterations (repeat (SendOk, peer_closed) n)) t = (t, []).
Proof.
  unfold peer_closed.
  induction n as [|n IH]; intros t L Q; [reflexivity|].
  unfold iterations in *; cbn [repeat map fst snd]. rewrite exec_cons, step_io.
  rewrite tick_reads by (assumption || (left; assumption)).
  assert (E : sent_one t = t) by (unfold sent_one; now rewrite Q).
  rewrite E; cbn [fst snd]. rewrite IH by assumption. reflexivity.
Qed.

(** C1. After a successful connect, a peer that closes its end makes every
    [recv] return the empty bytes object; the worker then emits nothing at
    all, for any number of iterations: after [connected_ok] there is neither
    an [error] nor [closed], and the thread is still in the loop with its
    socket open. *)
Theorem peer_closure_goes_unnoticed :
  forall (h : string) (p : Z) (n : nat),
    run ConnectOk (repeat (SendOk, peer_closed) n) (start (new_thread h p)) =
    (mkThread h p (Some fresh_sock) true true [] Connected, [EConnectedOk]).
Proof.
  intros h p n. rewrite run_unfold.
  change (io (Connect ConnectOk) (start (new_thread h p)))
    with (mkThread h p (Some fresh_sock) true true [] Connected, [EConnectedOk]).
  cbn [fst snd].
  rewrite peer_closed_iterations.
  - reflexivity.
  - repeat split. now exists fresh_sock.
  - reflexivity.
Qed.

(** The sibling path: a [recv] that raises is reported and closes. *)
Lemma recv_failure_closes : forall s e t, looping t -> send_passes s t ->
  snd (io (Tick s (RecvRaises e)) t) = [EError (socket_error e); EClosed] /\
  state (fst (io (Tick s (RecvRaises e)) t)) = Closed.
Proof.
  intros s e t L P. rewrite tick_reads by assumption. cbn [fst snd]. split; [reflexivity|].
  unfold teardown. destruct (socket (sent_one t)); reflexivity.
Qed.


(** *** Malformed and well-formed payloads *)

Lemma timeouts_keep_looping : forall n t, looping t ->
  snd (exec (iterations (repeat (SendOk, RecvTimeout) n)) t) = [] /\
  looping (fst (exec (iterations (repeat (SendOk, RecvTimeout) n)) t)).
Proof.
  induction n as [|n IH]; intros t L; [split; [reflexivity | exact L]|].
  unfold iterations in *; cbn [repeat map fst snd]. rewrite exec_cons, step_io.
  rewrite tick_reads by (assumption || (right; reflexivity)).
  cbn [fst snd app].
  apply IH. apply looping_sent_one, L.
Qed.

Lemma tick_reads_data : forall s data t, looping t -> send_passes s t ->
  data <> [] ->
  io (Tick s (RecvData data)) t =
  match json_loads data with
  | inr v => (sent_one t, [EVarsReceived v])
  | inl e => (sent_one t, [EError (json_decode_error e)])
  end.
Proof.
  intros s data t L P N. rewrite tick_reads by assumption.
  destruct data; [contradiction | reflexivity].
Qed.

(** C4. A read of non-empty data that does not parse emits exactly one
    [error] signal, the one reporting the decode error, and leaves the
    thread in the loop; after any number of idle iterations a well-formed
    payload is still emitted through [vars_received]. *)
Theorem decode_error_keeps_loop_running :
  forall (t : thread) (s : send_outcome) (bad good : bytes) (e : string)
         (v : json) (n : nat),
    looping t -> send_passes s t ->
    bad <> [] -> json_loads bad = inl e ->
    good <> [] -> json_loads good = inr v ->
    let r1 := io (Tick s (RecvData bad)) t in
    snd r1 = [EError (json_decode_error e)] /\
    count is_DecodeError (snd r1) = 1 /\
    count is_Closed (snd r1) = 0 /\
    looping (fst r1) /\
    snd (exec (iterations (repeat (SendOk, RecvTimeout) n ++ [(SendOk, RecvData good)]))
           (fst r1)) = [EVarsReceived v].
Proof.
  intros t s bad good e v n L P Nb Eb Ng Eg r1. subst r1.
  rewrite tick_reads_data, Eb by assumption. cbn [fst snd].
  assert (L1 : looping (sent_one t)) by apply looping_sent_one, L.
  assert (D : is_DecodeError (EError (json_decode_error e)) = true)
    by apply prefix_app.
  unfold count; cbn [filter]. rewrite D.
  repeat split; try apply L1.
  unfold iterations. rewrite map_app, exec_app.
  destruct (timeouts_keep_looping n (sent_one t) L1) as (E & L2).
  unfold iterations in E, L2. rewrite E. cbn [fst snd app map].
  rewrite exec_cons, step_io, tick_reads_data, Eg
    by (assumption || (right; reflexivity)).
  reflexivity.
Qed.

(** C8. The only test on a received document is that it parses: a value
    that is not an object (an array, a number, ...) is emitted through
    [vars_received] as it is, and no decode error is reported. *)
Theorem non_object_json_is_emitted_as_snapshot :
  forall (t : thread) (s : send_outcome) (data : bytes) (v : json),
    looping t -> send_passes s t ->
    data <> [] -> json_loads data = inr v -> is_object v = false ->
    let res := io (Tick s (RecvData data)) t in
    snd res = [EVarsReceived v] /\
    count is_SnapshotReceived (snd res) = 1 /\
    count is_DecodeError (snd res) = 0 /\
    looping (fst res).
Proof.
  intros t s data v L P N E _ res. subst res.
  rewrite tick_reads_data, E by assumption. cbn [fst snd].
  repeat split; apply looping_sent_one, L.
Qed.


(** *** Stopping *)

Lemma count_app : forall f a b, count f (a ++ b) = count f a + count f b.
Proof. intros. unfold count. now rewrite filter_app, length_app. Qed.

Lemma teardown_closes : forall t,
  snd (teardown t) = [EClosed] /\ state (fst (teardown t)) = Closed.
Proof. intros t. unfold teardown. destruct (socket t); split; reflexivity. Qed.

(** One step from the head of the loop either stays there and emits no
    [closed], or leaves the loop with [closed] as its last signal. *)
Lemma step_from_connected : forall a t, state t = Connected ->
  (state (fst (step a t)) = Connected /\ count is_Closed (snd (step a t)) = 0) \/
  (state (fst (step a t)) = Closed /\ ends_closed (snd (step a t))).
Proof.
  intros a [h p sk rn cn q st] S; cbn in S; subst.
  destruct a as [[o|s r]|[|cmd]]; try (left; split; reflexivity).
  unfold ends_closed.
  destruct rn; [|right; split; [apply teardown_closes|]].
  2:{ exists []. split; [|reflexivity]. apply teardown_closes. }
  unfold_run; cbn.
  destruct q as [|cmd rest]; cbn.
  - destruct sk as [k|]; cbn.
    + destruct r as [[|b d]| |e]; cbn; try (left; split; reflexivity).
      * destruct (json_loads (b :: d)); left; split; reflexivity.
      * right. split; [reflexivity|]. now exists [EError (socket_error e)].
    + right. split; [reflexivity|]. now eexists [EError _].
  - destruct sk as [k|]; cbn.
    + destruct s as [|e']; cbn.
      * destruct r as [[|b d]| |e]; cbn; try (left; split; reflexivity).
        -- destruct (json_loads (b :: d)); left; split; reflexivity.
        -- right. split; [reflexivity|]. now exists [EError (socket_error e)].
      * right. split; [reflexivity|]. now exists [EError (send_error e')].
    + right. split; [reflexivity|]. now eexists [EError _].
Qed.

Lemma exec_from_connected : forall acts t, state t = Connected ->
  (state (fst (exec acts t)) = Connected /\ count is_Closed (snd (exec acts t)) = 0) \/
  (state (fst (exec acts t)) = Closed /\ ends_closed (snd (exec acts t))).
Proof.
  induction acts as [|a acts IH]; intros t S.
  - left. split; [exact S | reflexivity].
  - rewrite exec_cons; cbn [fst snd].
    destruct (step_from_connected a t S) as [(S1 & C1)|(S1 & C1)].
    + destruct (IH _ S1) as [(S2 & C2)|(S2 & before & E & C2)].
      * left. split; [exact S2|]. rewrite count_app, C1, C2. reflexivity.
      * right. split; [exact S2|].
        exists (snd (step a t) ++ before). rewrite E, app_assoc. split; [reflexivity|].
        rewrite count_app, C1, C2. reflexivity.
    + right.
      destruct (exec_idle acts (fst (step a t))) as (E & _ & St);
        [right; left; exact S1|].
      rewrite E, St, app_nil_r. split; assumption.
Qed.

Lemma calls_keep_stopped : forall calls t,
  state t = Connected -> running t = false ->
  let t' := fst (exec (map Call calls) t) in
  snd (exec (map Call calls) t) = [] /\ state t' = Connected /\ running t' = false.
Proof.
  induction calls as [|c calls IH]; intros t S R; cbn zeta.
  - repeat split; assumption.
  - cbn [map]. rewrite exec_cons, step_call. cbn [fst snd app].
    apply IH; destruct c; cbn; assumption || reflexivity.
Qed.

Lemma stop_then_tick : forall calls s r rest t, state t = Connected ->
  snd (exec (Call CallStop :: map Call calls ++ Io (Tick s r) :: rest) t) = [EClosed] /\
  state (fst (exec (Call CallStop :: map Call calls ++ Io (Tick s r) :: rest) t)) = Closed.
Proof.
  intros calls s r rest t S.
  rewrite exec_cons, step_call. cbn [fst snd app apply_call].
  rewrite exec_app.
  destruct (calls_keep_stopped calls (stop t) S eq_refl) as (E & S1 & R1).
  rewrite E. cbn [fst snd app].
  set (t1 := fst (exec (map Call calls) (stop t))) in *.
  rewrite exec_cons, step_io.
  assert (T : io (Tick s r) t1 = teardown t1).
  { clear E. unfold_run. rewrite S1, R1. reflexivity. }
  rewrite T.
  destruct (teardown_closes t1) as (E1 & S2).
  destruct (exec_idle rest (fst (teardown t1))) as (E2 & _ & S3);
    [right; left; exact S2|].
  cbn [fst snd]. rewrite E1, E2, S3. split; [reflexivity | assumption].
Qed.


(** C5. [stop] called at any point of a worker that was in its loop, once
    the worker's thread is scheduled again, gives a trace with exactly one
    [closed], which is its last signal; called at the head of the loop it
    gives [closed] and nothing else.  On a worker that is not executing
    [run] (stopped or never started) [stop] and whatever follows emit
    nothing, and a second [stop] changes nothing. *)
Theorem stop_closes_once_and_is_idempotent :
  forall (t u : thread) (pre rest acts : list action) (calls : list call)
         (s : send_outcome) (r : recv_outcome),
    state t = Connected -> idle u ->
    let after_stop := Call CallStop :: map Call calls ++ Io (Tick s r) :: rest in
    ends_closed (snd (exec (pre ++ after_stop) t)) /\
    snd (exec after_stop t) = [EClosed] /\
    state (fst (exec after_stop t)) = Closed /\
    snd (exec (Call CallStop :: acts) u) = [] /\
    stop (stop t) = stop t /\ stop (stop u) = stop u.
Proof.
  intros t u pre rest acts calls s r S I after_stop. subst after_stop.
  repeat split; try apply (stop_then_tick calls s r rest t S).
  - rewrite exec_app. cbn [snd].
    destruct (exec_from_connected pre t S) as [(S1 & C1)|(S1 & before & E & C1)].
    + destruct (stop_then_tick calls s r rest _ S1) as (E2 & _).
      rewrite E2. now exists (snd (exec pre t)).
    + destruct (exec_idle (Call CallStop :: map Call calls ++ Io (Tick s r) :: rest)
                  (fst (exec pre t))) as (E2 & _); [right; left; exact S1|].
      rewrite E2, app_nil_r. now exists before.
  - apply exec_idle, I.
Qed.

(** *** The outbound queue *)

Lemma firstn_step : forall (k : nat) (cmd : bytes) (rest : list bytes),
  [cmd] ++ firstn k rest = firstn (S k) (cmd :: rest).
Proof. reflexivity. Qed.

(** What one iteration writes: nothing, or the head of the queue. *)
Lemma tick_wire : forall s r t, state t = Connected ->
  let t' := fst (io (Tick s r) t) in
  (state t' = Closed /\
   (wire t' = wire t \/
    exists cmd rest, send_queue t = cmd :: rest /\ wire t' = wire t ++ [cmd])) \/
  (state t' = Connected /\
   ((send_queue t = [] /\ send_queue t' = [] /\ wire t' = wire t) \/
    exists cmd rest, send_queue t = cmd :: rest /\ send_queue t' = rest /\
                     wire t' = wire t ++ [cmd])).
Proof.
  intros s r [h p sk rn cn q st] S; cbn in S; subst. cbn zeta.
  unfold_run; unfold wire; cbn.
  destruct rn; cbn.
  2:{ left. destruct sk; cbn; auto. }
  destruct q as [|cmd rest]; cbn.
  - destruct sk as [k|]; cbn; [|left; auto].
    destruct r as [[|b d]| |e]; cbn;
      try match goal with |- context [json_loads ?x] => destruct (json_loads x); cbn end;
      first [ right; split; [reflexivity|]; left; repeat split; reflexivity
            | left; split; [reflexivity|]; left; reflexivity ].
  - destruct sk as [k|]; cbn; [|left; auto].
    destruct s as [|e']; cbn; [|left; auto].
    destruct r as [[|b d]| |e]; cbn;
      try match goal with |- context [json_loads ?x] => destruct (json_loads x); cbn end;
      first [ right; split; [reflexivity|]; right; eauto 8
            | left; split; [reflexivity|]; right; eauto 8 ].
Qed.

Lemma wire_is_queue_prefix : forall ticks t, state t = Connected ->
  exists k, k <= List.length ticks /\
    wire (fst (exec (iterations ticks) t)) = wire t ++ firstn k (send_queue t).
Proof.
  induction ticks as [|[s r] ticks IH]; intros t St.
  - exists 0. cbn. now rewrite app_nil_r.
  - unfold iterations in *. cbn [map fst snd List.length]. rewrite exec_cons, step_io.
    cbn [fst].
    destruct (tick_wire s r t St) as [(S1 & W)|(S1 & W)].
    + fold (iterations ticks).
      rewrite exec_iterations_idle by (right; left; exact S1). cbn [fst].
      destruct W as [W|(cmd & rest & Q & W)].
      * exists 0. rewrite W. cbn. rewrite app_nil_r. split; [lia | reflexivity].
      * exists 1. rewrite W, Q. cbn. split; [lia | reflexivity].
    + destruct (IH _ S1) as (k & Hk & E). rewrite E.
      destruct W as [(Q & Q1 & W)|(cmd & rest & Q & Q1 & W)]; rewrite W, Q1, Q.
      * exists 0. split; [lia|]. destruct k; reflexivity.
      * exists (S k). split; [lia|]. rewrite <- app_assoc, firstn_step. reflexivity.
Qed.

Lemma healthy_tick : forall s r t, looping t -> healthy (s, r) = true ->
  fst (io (Tick s r) t) = sent_one t.
Proof.
  intros s r t L H. destruct s; [|discriminate].
  rewrite tick_reads by (assumption || (right; reflexivity)).
  destruct r as [[|b d]| |e]; try reflexivity; [|discriminate].
  destruct (json_loads (b :: d)); reflexivity.
Qed.

Lemma healthy_iterations : forall ticks t, looping t ->
  forallb healthy ticks = true ->
  wire (fst (exec (iterations ticks) t)) =
  wire t ++ firstn (List.length ticks) (send_queue t).
Proof.
  induction ticks as [|[s r] ticks IH]; intros t L H.
  - cbn. now rewrite app_nil_r.
  - cbn [forallb] in H. apply andb_prop in H. destruct H as (H1 & H2).
    unfold iterations in *. cbn [map fst snd List.length]. rewrite exec_cons, step_io.
    cbn [fst]. rewrite healthy_tick by assumption.
    destruct (looping_sent_one t L) as (L1 & Q1 & W1).
    rewrite IH, W1, Q1 by assumption.
    rewrite <- app_assoc. destruct (send_queue t); [|reflexivity].
    cbn. now rewrite firstn_nil.
Qed.

Lemma enqueue_all : forall cmds t,
  let t0 := fold_left (fun u c => enqueue_command c u) cmds t in
  send_queue t0 = send_queue t ++ cmds /\ socket t0 = socket t /\
  state t0 = state t /\ running t0 = running t.
Proof.
  induction cmds as [|c cmds IH]; intros t; cbn zeta; cbn [fold_left].
  - rewrite app_nil_r. auto.
  - destruct (IH (enqueue_command c t)) as (Q & K & S & R).
    rewrite Q, K, S, R. cbn. rewrite <- app_assoc. auto.
Qed.


(** C6. Commands enqueued before the worker drains any of them are written
    in the order of the calls: whatever the outside world answers, the
    writes are a prefix of the enqueued commands, one list entry per write
    and at most one per iteration; while the iterations are healthy the
    first commands, as many as there were iterations, are on the wire, so
    all of them once there were enough iterations.  An iteration writes
    nothing or exactly the head of the queue. *)
Theorem commands_reach_wire_in_fifo_order :
  forall (t : thread) (cmds : list bytes)
         (ticks : list (send_outcome * recv_outcome)),
    looping t -> send_queue t = [] ->
    let t0 := fold_left (fun u c => enqueue_command c u) cmds t in
    let tn := fst (exec (iterations ticks) t0) in
    send_queue t0 = cmds /\
    (exists k, k <= List.length ticks /\ wire tn = wire t ++ firstn k cmds) /\
    (forallb healthy ticks = true ->
     wire tn = wire t ++ firstn (List.length ticks) cmds) /\
    (forallb healthy ticks = true -> List.length cmds <= List.length ticks ->
     wire tn = wire t ++ cmds) /\
    (forall (u : thread) (s : send_outcome) (r : recv_outcome),
       state u = Connected ->
       wire (fst (io (Tick s r) u)) = wire u \/
       exists cmd rest, send_queue u = cmd :: rest /\
                        wire (fst (io (Tick s r) u)) = wire u ++ [cmd]).
Proof.
  intros t cmds ticks L Q t0 tn.
  destruct (enqueue_all cmds t) as (Q0 & K0 & S0 & R0).
  fold t0 in Q0, K0, S0, R0. rewrite Q in Q0. cbn [app] in Q0.
  assert (W0 : wire t0 = wire t) by (unfold wire; now rewrite K0).
  assert (L0 : looping t0).
  { destruct L as (S & R & sk & K). repeat split; try congruence.
    exists sk. congruence. }
  assert (H : forallb healthy ticks = true ->
              wire tn = wire t ++ firstn (List.length ticks) cmds).
  { intros Hh. subst tn. rewrite healthy_iterations, W0, Q0 by assumption.
    reflexivity. }
  split; [exact Q0|]. split; [|split; [exact H|split]].
  - destruct (wire_is_queue_prefix ticks t0) as (k & Hk & E); [apply L0|].
    exists k. split; [exact Hk|]. subst tn. now rewrite E, W0, Q0.
  - intros Hh Hlen. rewrite (H Hh), firstn_all2 by exact Hlen. reflexivity.
  - intros u s r Su.
    destruct (tick_wire s r u Su) as [(_ & [W|(cmd & rest & Qu & W)])
                                     |(_ & [(_ & _ & W)|(cmd & rest & Qu & _ & W)])];
      eauto.
Qed.


(** ** Further properties of the worker *)

(** X1. A [sendall] that raises is fatal: the iteration reports the send
    error and then [closed] whatever [recv] would have answered, the socket
    is closed and the thread has left the loop.  The popped command is
    dropped: it is not put back in the queue, and it is not added to the
    completed writes, which are those made before.  How many of its bytes
    reached the peer before [sendall] raised is not recorded. *)
Theorem send_failure_is_fatal :
  forall (t : thread) (e : string) (r : recv_outcome) (cmd : bytes)
         (rest : list bytes),
    looping t -> send_queue t = cmd :: rest ->
    let res := io (Tick (SendRaises e) r) t in
    snd res = [EError (send_error e); EClosed] /\
    count is_SendError (snd res) = 1 /\
    state (fst res) = Closed /\
    wire (fst res) = wire t /\
    send_queue (fst res) = rest /\
    socket_closed (fst res) = true.
Proof.
  intros t e r cmd rest L Q res. subst res.
  rewrite (tick_send_fails e r t cmd rest L Q). cbn [fst snd].
  assert (P : is_SendError (EError (send_error e)) = true) by apply prefix_app.
  unfold count; cbn [filter]. rewrite P.
  destruct t as [h p sk rn cn q st]. destruct L as (S & R & k & K).
  cbn in *; subst. repeat split.
Qed.

(** X2. A [recv] that raises anything but a timeout is fatal: the
    iteration reports the socket error and then [closed], closes the socket
    and leaves the loop; a command sent earlier in the same iteration stays
    written. *)
Theorem recv_failure_is_fatal :
  forall (t : thread) (s : send_outcome) (e : string),
    looping t -> send_passes s t ->
    let res := io (Tick s (RecvRaises e)) t in
    snd res = [EError (socket_error e); EClosed] /\
    count is_SocketError (snd res) = 1 /\
    state (fst res) = Closed /\
    wire (fst res) = wire t ++ firstn 1 (send_queue t) /\
    send_queue (fst res) = tl (send_queue t) /\
    socket_closed (fst res) = true.
Proof.
  intros t s e L P res. subst res.
  rewrite tick_reads by assumption. cbn [fst snd].
  assert (E : is_SocketError (EError (socket_error e)) = true) by apply prefix_app.
  unfold count; cbn [filter]. rewrite E.
  destruct (looping_sent_one t L) as ((_ & _ & k & K) & Q1 & W1).
  unfold teardown, wire, socket_closed in *. rewrite K in *. cbn.
  repeat split; assumption.
Qed.

(** X3. When [settimeout] raises on the socket just connected, the attempt
    is reported as a failed connection and the thread ends in [Failed]; the
    socket stays referenced by the worker and is not closed, then or later. *)
Theorem settimeout_failure_leaves_socket_open :
  forall (t : thread) (e : string) (acts : list action),
    state t = Connecting ->
    let res := exec (Io (Connect (SetTimeoutRaises e)) :: acts) t in
    snd res = [EError (connection_failed e)] /\
    state (fst res) = Failed /\
    socket (fst res) = Some fresh_sock /\
    socket_closed (fst res) = false.
Proof.
  intros t e acts St res. subst res. rewrite exec_cons, step_io.
  assert (S1 : io (Connect (SetTimeoutRaises e)) t =
               (set_state Failed (set_connected false (set_socket (Some fresh_sock) t)),
                [EError (connection_failed e)])).
  { unfold_run. rewrite St. reflexivity. }
  rewrite S1. cbn [fst snd].
  destruct (exec_idle acts
              (set_state Failed (set_connected false (set_socket (Some fresh_sock) t))))
    as (E & K & S2); [right; right; reflexivity|].
  unfold socket_closed. rewrite E, K, S2. repeat split.
Qed.


Lemma exec_idle_queue : forall acts t, idle t ->
  send_queue (fst (exec acts t)) = send_queue t ++ enqueued acts /\
  wire (fst (exec acts t)) = wire t.
Proof.
  induction acts as [|a acts IH]; intros t I.
  - cbn. rewrite app_nil_r. auto.
  - rewrite exec_cons. cbn [fst].
    destruct (step_idle a t I) as (_ & I1 & K1 & _).
    destruct (IH _ I1) as (Q & W). rewrite Q, W.
    split; [|unfold wire; now rewrite K1].
    destruct a as [x|[|cmd]].
    + rewrite step_io, io_idle by assumption. reflexivity.
    + reflexivity.
    + cbn. now rewrite <- app_assoc.
Qed.

(** X4. A worker that is not executing [run] (never started, failed to
    connect, or out of its loop) emits nothing and writes nothing whatever
    is called on it or answered by the outside world; commands enqueued on
    it only pile up at the end of its queue. *)
Theorem idle_worker_is_inert :
  forall (t : thread) (acts : list action),
    idle t ->
    let res := exec acts t in
    snd res = [] /\
    state (fst res) = state t /\
    socket (fst res) = socket t /\
    wire (fst res) = wire t /\
    send_queue (fst res) = send_queue t ++ enqueued acts.
Proof.
  intros t acts I res. subst res.
  destruct (exec_idle acts t I) as (E & K & S).
  destruct (exec_idle_queue acts t I) as (Q & W).
  repeat split; assumption.
Qed.

(** What one iteration emits: at most one snapshot or decode error and the
    loop goes on, or one of the three endings and the loop is left. *)
Lemma tick_shape : forall s r t, state t = Connected ->
  (state (fst (io (Tick s r) t)) = Connected /\
   (snd (io (Tick s r) t) = [] \/
    (exists v, snd (io (Tick s r) t) = [EVarsReceived v]) \/
    (exists e, snd (io (Tick s r) t) = [EError (json_decode_error e)]))) \/
  (state (fst (io (Tick s r) t)) = Closed /\
   (snd (io (Tick s r) t) = [EClosed] \/
    (exists e, snd (io (Tick s r) t) = [EError (send_error e); EClosed]) \/
    (exists e, snd (io (Tick s r) t) = [EError (socket_error e); EClosed]))).
Proof.
  intros s r [h p sk rn cn q st] St; cbn in St; subst.
  unfold_run; cbn.
  destruct rn; cbn.
  2:{ right. destruct sk; cbn; auto. }
  destruct q as [|cmd rest]; cbn.
  - destruct sk as [k|]; cbn; [|right; eauto 6].
    destruct r as [[|b d]| |e]; cbn;
      try match goal with |- context [json_loads ?x] => destruct (json_loads x); cbn end;
      first [ left; split; [reflexivity|]; eauto 6
            | right; split; [reflexivity|]; eauto 6 ].
  - destruct sk as [k|]; cbn; [|right; eauto 6].
    destruct s as [|e']; cbn; [|right; eauto 6].
    destruct r as [[|b d]| |e]; cbn;
      try match goal with |- context [json_loads ?x] => destruct (json_loads x); cbn end;
      first [ left; split; [reflexivity|]; eauto 6
            | right; split; [reflexivity|]; eauto 6 ].
Qed.

Lemma step_shape : forall a t, state t = Connected ->
  (state (fst (step a t)) = Connected /\
   (snd (step a t) = [] \/
    (exists v, snd (step a t) = [EVarsReceived v]) \/
    (exists e, snd (step a t) = [EError (json_decode_error e)]))) \/
  (state (fst (step a t)) = Closed /\
   (snd (step a t) = [EClosed] \/
    (exists e, snd (step a t) = [EError (send_error e); EClosed]) \/
    (exists e, snd (step a t) = [EError (socket_error e); EClosed]))).
Proof.
  intros a t St. destruct a as [[o|s r]|c].
  - left. rewrite step_io. unfold_run. rewrite St. cbn. auto.
  - rewrite step_io. apply tick_shape, St.
  - left. rewrite step_call. cbn. split; [destruct c; exact St | auto].
Qed.

Lemma loop_trace_exec : forall acts t, state t = Connected ->
  loop_trace (snd (exec acts t)) = true.
Proof.
  induction acts as [|a acts IH]; intros t St; [reflexivity|].
  rewrite exec_cons. cbn [snd].
  destruct (step_shape a t St) as [(S1 & E)|(S1 & E)].
  - specialize (IH _ S1).
    destruct E as [E|[(v & E)|(e & E)]]; rewrite E; cbn [app loop_trace];
      try exact IH.
    unfold json_decode_error. rewrite prefix_app. exact IH.
  - destruct (exec_idle acts (fst (step a t))) as (E2 & _); [right; left; exact S1|].
    rewrite E2, app_nil_r.
    destruct E as [E|[(e & E)|(e & E)]]; rewrite E; try reflexivity.
    + unfold send_error. cbn [loop_trace].
      change (prefix "JSON decode error: " ("Send error: " ++ e)) with false.
      cbv iota. rewrite prefix_app. reflexivity.
    + unfold socket_error. cbn [loop_trace].
      change (prefix "JSON decode error: " ("Socket error: " ++ e)) with false.
      cbv iota. rewrite prefix_app, orb_true_r. reflexivity.
Qed.

(** X5. The signals of a started worker, for every script of outcomes and
    controller calls, follow the life cycle: nothing yet; or the single error
    of a failed connect; or [connected_ok] first, then snapshots and decode
    errors, then at most one ending, which is [closed] alone or a send or
    socket error directly followed by [closed]. *)
Theorem worker_trace_follows_life_cycle :
  forall (t : thread) (acts : list action),
    state t = Connecting ->
    lifecycle_trace (snd (exec acts t)) = true.
Proof.
  intros t acts. revert t.
  induction acts as [|a acts IH]; intros t St; [reflexivity|].
  rewrite exec_cons. cbn [snd].
  destruct a as [[o|s r]|c].
  - rewrite step_io. destruct o as [|e|e].
    + assert (S1 : io (Connect ConnectOk) t =
                   (set_state Connected
                      (set_connected true (set_socket (Some fresh_sock) t)),
                    [EConnectedOk])).
      { unfold_run. rewrite St. reflexivity. }
      rewrite S1. cbn [fst snd app lifecycle_trace].
      apply loop_trace_exec. reflexivity.
    + assert (S1 : io (Connect (ConnectRaises e)) t =
                   (set_state Failed (set_connected false t),
                    [EError (connection_failed e)])).
      { unfold_run. rewrite St. reflexivity. }
      rewrite S1. cbn [fst snd].
      destruct (exec_idle acts (set_state Failed (set_connected false t)))
        as (E & _); [right; right; reflexivity|].
      rewrite E. cbn [app lifecycle_trace].
      unfold connection_failed. rewrite prefix_app. reflexivity.
    + assert (S1 : io (Connect (SetTimeoutRaises e)) t =
                   (set_state Failed
                      (set_connected false (set_socket (Some fresh_sock) t)),
                    [EError (connection_failed e)])).
      { unfold_run. rewrite St. reflexivity. }
      rewrite S1. cbn [fst snd].
      destruct (exec_idle acts
                  (set_state Failed
                     (set_connected false (set_socket (Some fresh_sock) t))))
        as (E & _); [right; right; reflexivity|].
      rewrite E. cbn [app lifecycle_trace].
      unfold connection_failed. rewrite prefix_app. reflexivity.
  - rewrite step_io.
    assert (S1 : io (Tick s r) t = (t, [])) by (unfold_run; now rewrite St).
    rewrite S1. cbn [fst snd app]. apply IH, St.
  - rewrite step_call. cbn [fst snd app]. apply IH. destruct c; exact St.
Qed.


(** The account of one iteration: what was written and what is left in the
    queue is what was there before, up to the one command a failing
    [sendall] loses on the way out of the loop. *)
Lemma tick_accounts : forall s r t, state t = Connected ->
  let t' := fst (io (Tick s r) t) in
  exists lost,
    List.length lost <= 1 /\
    wire t' ++ lost ++ send_queue t' = wire t ++ send_queue t /\
    ((state t' = Connected /\ lost = []) \/ state t' = Closed).
Proof.
  intros s r [h p sk rn cn q st] St; cbn in St; subst. cbn zeta.
  unfold_run; unfold wire; cbn.
  destruct rn; cbn.
  2:{ exists []. destruct sk; cbn; auto. }
  destruct q as [|cmd rest]; cbn.
  - exists []. destruct sk as [k|]; cbn; [|auto].
    destruct r as [[|b d]| |e]; cbn;
      try match goal with |- context [json_loads ?x] => destruct (json_loads x); cbn end;
      auto.
  - destruct sk as [k|]; cbn; [|exists [cmd]; cbn; auto].
    destruct s as [|e']; cbn; [|exists [cmd]; cbn; auto].
    exists [].
    destruct r as [[|b d]| |e]; cbn;
      try match goal with |- context [json_loads ?x] => destruct (json_loads x); cbn end;
      rewrite <- app_assoc; cbn; auto.
Qed.

Lemma exec_accounts : forall acts t, state t = Connected ->
  let t' := fst (exec acts t) in
  exists lost,
    List.length lost <= 1 /\
    wire t' ++ lost ++ send_queue t' = wire t ++ send_queue t ++ enqueued acts.
Proof.
  induction acts as [|a acts IH]; intros t St; cbn zeta.
  - exists []. split; [cbn; lia|]. cbn. now rewrite app_nil_r.
  - rewrite exec_cons. cbn [fst].
    destruct a as [[o|s r]|c].
    + rewrite step_io.
      assert (S1 : io (Connect o) t = (t, [])) by (unfold_run; now rewrite St).
      rewrite S1. cbn [fst]. apply (IH t St).
    + rewrite step_io.
      destruct (tick_accounts s r t St) as (lost & Hl & Acc & [(S1 & ->)|S1]).
      * destruct (IH _ S1) as (lost' & Hl' & Acc').
        exists lost'. split; [exact Hl'|].
        rewrite Acc'. cbn [app] in Acc. cbn [enqueued flat_map app].
        rewrite app_assoc, Acc, <- app_assoc. reflexivity.
      * destruct (exec_idle_queue acts (fst (io (Tick s r) t))) as (Q & W);
          [right; left; exact S1|].
        exists lost. split; [exact Hl|].
        rewrite Q, W. cbn [enqueued flat_map app].
        rewrite !app_assoc. rewrite <- (app_assoc (wire _) lost), Acc.
        reflexivity.
    + rewrite step_call. cbn [fst].
      destruct (IH (apply_call c t)) as (lost & Hl & Acc);
        [destruct c; exact St|].
      exists lost. split; [exact Hl|]. rewrite Acc.
      destruct c as [|cmd]; cbn; [reflexivity|].
      now rewrite <- app_assoc.
Qed.

(** X6. Commands are neither duplicated nor reordered, whenever they are
    enqueued: after any script on a worker in its loop, the writes followed
    by the queue are the earlier writes, the earlier queue and the commands
    enqueued by the script, in that order, except for at most one command,
    the one a failing [sendall] took with it. *)
Theorem queue_is_accounted_for :
  forall (t : thread) (acts : list action),
    state t = Connected ->
    exists lost,
      List.length lost <= 1 /\
      wire (fst (exec acts t)) ++ lost ++ send_queue (fst (exec acts t)) =
      wire t ++ send_queue t ++ enqueued acts.
Proof. intros t acts St. apply (exec_accounts acts t St). Qed.

Lemma enqueue_calls : forall cmds t,
  exec (map (fun c => Call (CallEnqueue c)) cmds) t =
  (fold_left (fun u c => enqueue_command c u) cmds t, []).
Proof.
  induction cmds as [|c cmds IH]; intros t; [reflexivity|].
  cbn [map fold_left]. rewrite exec_cons, step_call. cbn [fst snd app apply_call].
  rewrite IH. reflexivity.
Qed.

(** X7. Commands enqueued while the worker is still connecting are kept:
    once the connect succeeds, healthy iterations write them in the order
    of the calls, one per iteration. *)
Theorem commands_enqueued_while_connecting_are_sent :
  forall (t : thread) (cmds : list bytes)
         (ticks : list (send_outcome * recv_outcome)),
    state t = Connecting -> running t = true -> send_queue t = [] ->
    forallb healthy ticks = true ->
    let script := map (fun c => Call (CallEnqueue c)) cmds
                    ++ Io (Connect ConnectOk) :: iterations ticks in
    wire (fst (exec script t)) = firstn (List.length ticks) cmds.
Proof.
  intros t cmds ticks St R Q H script. subst script.
  rewrite exec_app, enqueue_calls. cbn [fst].
  destruct (enqueue_all cmds t) as (Q0 & K0 & S0 & R0).
  set (t0 := fold_left (fun u c => enqueue_command c u) cmds t) in *.
  rewrite Q in Q0. cbn [app] in Q0.
  rewrite exec_cons, step_io. cbn [fst].
  assert (S1 : io (Connect ConnectOk) t0 =
               (set_state Connected
                  (set_connected true (set_socket (Some fresh_sock) t0)),
                [EConnectedOk])).
  { unfold_run. rewrite S0, St. reflexivity. }
  rewrite S1. cbn [fst].
  rewrite healthy_iterations; [| |exact H].
  - cbn. rewrite Q0. reflexivity.
  - repeat split; [cbn; congruence|]. now exists fresh_sock.
Qed.


Lemma stopped_step : forall a t,
  state t = Connected -> running t = false ->
  wire (fst (step a t)) = wire t /\
  ((state (fst (step a t)) = Connected /\ running (fst (step a t)) = false /\
    snd (step a t) = []) \/
   (state (fst (step a t)) = Closed /\ snd (step a t) = [EClosed])).
Proof.
  intros a [h p sk rn cn q st] St R; cbn in St, R; subst.
  destruct a as [[o|s r]|[|cmd]]; try (split; [reflexivity|left; repeat split]).
  unfold_run; unfold wire; cbn. destruct sk; cbn; auto.
Qed.

Lemma stopped_exec : forall acts t,
  state t = Connected -> running t = false ->
  wire (fst (exec acts t)) = wire t /\
  (snd (exec acts t) = [] \/ snd (exec acts t) = [EClosed]).
Proof.
  induction acts as [|a acts IH]; intros t St R; [cbn; auto|].
  rewrite exec_cons. cbn [fst snd].
  destruct (stopped_step a t St R) as (W & [(S1 & R1 & E)|(S1 & E)]).
  - destruct (IH _ S1 R1) as (W' & E'). rewrite W', W, E. auto.
  - destruct (exec_idle acts (fst (step a t))) as (E2 & K2 & _);
      [right; left; exact S1|].
    rewrite E, E2. unfold wire in *. rewrite K2. auto.
Qed.

(** X8. Once [stop] has been called on a worker at the head of its loop,
    nothing is written any more, whatever is enqueued before or after and
    whatever the outside world answers: the next iteration leaves the loop
    before the send part.  The only signal still to come is [closed]. *)
Theorem nothing_is_written_after_stop :
  forall (t : thread) (acts : list action),
    state t = Connected ->
    let res := exec (Call CallStop :: acts) t in
    wire (fst res) = wire t /\
    (snd res = [] \/ snd res = [EClosed]).
Proof.
  intros t acts St res. subst res.
  rewrite exec_cons, step_call. cbn [fst snd app apply_call].
  apply (stopped_exec acts (stop t)); [exact St | reflexivity].
Qed.

Lemma calls_keep_connecting : forall calls t, state t = Connecting ->
  snd (exec (map Call calls) t) = [] /\
  state (fst (exec (map Call calls) t)) = Connecting /\
  socket (fst (exec (map Call calls) t)) = socket t /\
  (running t = false -> running (fst (exec (map Call calls) t)) = false).
Proof.
  induction calls as [|c calls IH]; intros t St; [cbn; auto|].
  cbn [map]. rewrite exec_cons, step_call. cbn [fst snd app].
  destruct (IH (apply_call c t)) as (E & S1 & K & R); [destruct c; exact St|].
  rewrite E, S1, K. repeat split; [destruct c; reflexivity|].
  intros Rf. apply R. destruct c; [reflexivity | exact Rf].
Qed.

(** X9. A [stop] that arrives while the worker is still connecting is not
    lost: after a successful connect the worker emits [connected_ok], and at
    its first loop test [closed], without writing any of the queued
    commands. *)
Theorem stop_while_connecting_closes_at_first_test :
  forall (t : thread) (before after : list call) (s : send_outcome)
         (r : recv_outcome) (rest : list action),
    state t = Connecting ->
    let script := Call CallStop :: map Call before
                    ++ Io (Connect ConnectOk) :: map Call after
                    ++ Io (Tick s r) :: rest in
    snd (exec script t) = [EConnectedOk; EClosed] /\
    state (fst (exec script t)) = Closed /\
    wire (fst (exec script t)) = [].
Proof.
  intros t before after s r rest St script. subst script.
  rewrite exec_cons, step_call. cbn [fst snd app apply_call].
  rewrite exec_app.
  destruct (calls_keep_connecting before (stop t) St) as (E & S1 & _ & R1).
  specialize (R1 eq_refl).
  set (t1 := fst (exec (map Call before) (stop t))) in *.
  rewrite E. cbn [fst snd app].
  rewrite exec_cons, step_io.
  assert (C : io (Connect ConnectOk) t1 =
              (set_state Connected
                 (set_connected true (set_socket (Some fresh_sock) t1)),
               [EConnectedOk])).
  { clear E. unfold_run. rewrite S1. reflexivity. }
  rewrite C. cbn [fst snd].
  set (t2 := set_state Connected
               (set_connected true (set_socket (Some fresh_sock) t1))) in *.
  rewrite exec_app.
  destruct (calls_keep_stopped after t2 eq_refl R1) as (E2 & S2 & R2).
  set (t3 := fst (exec (map Call after) t2)) in *.
  rewrite E2. cbn [fst snd app].
  destruct (stopped_exec (Io (Tick s r) :: rest) t3 S2 R2) as (W & _).
  rewrite W.
  assert (W3 : wire t3 = []).
  { clear - t3. subst t3.
    assert (G : forall calls u, wire (fst (exec (map Call calls) u)) = wire u).
    { induction calls as [|c calls IH]; intros u; [reflexivity|].
      cbn [map]. rewrite exec_cons, step_call. cbn [fst]. rewrite IH.
      destruct c; reflexivity. }
    rewrite G. reflexivity. }
  rewrite W3.
  rewrite exec_cons, step_io.
  assert (T : io (Tick s r) t3 = teardown t3).
  { clear E E2 W W3 C. unfold_run. rewrite S2, R2. reflexivity. }
  rewrite T.
  destruct (teardown_closes t3) as (E3 & S3).
  destruct (exec_idle rest (fst (teardown t3))) as (E4 & _ & S4);
    [right; left; exact S3|].
  cbn [fst snd]. rewrite E3, E4, S4, S3. repeat split.
Qed.

Lemma step_socket : forall a t sk,
  state t = Connected -> socket t = Some sk -> is_closed sk = false ->
  (state (fst (step a t)) = Connected /\
   exists sk', socket (fst (step a t)) = Some sk' /\ is_closed sk' = false) \/
  (state (fst (step a t)) = Closed /\ socket_closed (fst (step a t)) = true).
Proof.
  intros a [h p k rn cn q st] sk St K C; cbn in St, K. subst.
  destruct a as [[o|s r]|[|cmd]];
    try (left; split; [reflexivity|]; exists sk; split; [reflexivity|exact C]).
  unfold_run; unfold socket_closed; cbn.
  destruct rn; cbn; [|auto].
  destruct q as [|cmd rest]; cbn.
  - destruct r as [[|b d]| |e]; cbn;
      try match goal with |- context [json_loads ?x] => destruct (json_loads x); cbn end;
      first [ left; split; [reflexivity|]; eexists; split; [reflexivity|exact C]
            | right; auto ].
  - destruct s as [|e']; cbn; [|auto].
    destruct r as [[|b d]| |e]; cbn;
      try match goal with |- context [json_loads ?x] => destruct (json_loads x); cbn end;
      first [ left; split; [reflexivity|]; eexists; split; [reflexivity|exact C]
            | right; auto ].
Qed.

(** X10. The socket of a worker in its loop is closed exactly when the
    loop is left: after any script the thread is still in the loop with its
    socket open, or has left the loop and closed the socket. *)
Theorem socket_is_closed_exactly_when_loop_exits :
  forall (t : thread) (sk : sock) (acts : list action),
    state t = Connected -> socket t = Some sk -> is_closed sk = false ->
    let t' := fst (exec acts t) in
    (state t' = Connected /\ socket_closed t' = false) \/
    (state t' = Closed /\ socket_closed t' = true).
Proof.
  intros t sk acts. revert t sk.
  induction acts as [|a acts IH]; intros t sk St K C; cbn zeta.
  - left. split; [exact St|]. cbn. unfold socket_closed. now rewrite K.
  - rewrite exec_cons. cbn [fst].
    destruct (step_socket a t sk St K C) as [(S1 & sk' & K1 & C1)|(S1 & C1)].
    + apply (IH _ sk' S1 K1 C1).
    + right.
      destruct (exec_idle acts (fst (step a t))) as (_ & K2 & S2);
        [right; left; exact S1|].
      unfold socket_closed in *. rewrite K2, S2. split; assumption.
Qed.


(** *** What a step of the worker's thread hands to the controller *)

Lemma io_from_connecting : forall a t, state t = Connecting ->
  io a t = (t, []) \/
  (state (fst (io a t)) = Connected /\ connected (fst (io a t)) = true /\
   snd (io a t) = [EConnectedOk]) \/
  (state (fst (io a t)) = Failed /\ exists msg, snd (io a t) = [EError msg]).
Proof.
  intros a t St. unfold_run. rewrite St.
  destruct a as [[|e|e]|s r]; cbn; eauto 6.
Qed.

Lemma io_from_connected : forall a t, state t = Connected ->
  connected (fst (io a t)) = connected t /\
  ((state (fst (io a t)) = Connected /\ forallb plain (snd (io a t)) = true) \/
   (state (fst (io a t)) = Closed /\
    exists mid, snd (io a t) = mid ++ [EClosed] /\ forallb plain mid = true)).
Proof.
  intros a t St. split.
  - destruct t as [h p sk rn cn q st]; cbn in St; subst.
    destruct a as [o|s r]; [reflexivity|].
    unfold_run; cbn.
    destruct rn; cbn; [|destruct sk; reflexivity].
    destruct q as [|cmd rest]; cbn;
      (destruct sk as [k|]; cbn; [|reflexivity]);
      try (destruct s as [|e']; cbn; [|reflexivity]);
      destruct r as [[|b d]| |e]; cbn;
      try match goal with |- context [json_loads ?x] => destruct (json_loads x); cbn end;
      reflexivity.
  - destruct (step_shape (Io a) t St) as [(S1 & E)|(S1 & E)];
      rewrite step_io in S1, E.
    + left. split; [exact S1|].
      destruct E as [E|[(v & E)|(e & E)]]; rewrite E; reflexivity.
    + right. split; [exact S1|].
      destruct E as [E|[(e & E)|(e & E)]]; rewrite E.
      * now exists [].
      * now exists [EError (send_error e)].
      * now exists [EError (socket_error e)].
Qed.

End WorkerProperties.

(** ** Properties of the controller *)

Section PanelProperties.

Variable json_loads : bytes -> string + json.
Variable json_dumps : json -> string.
Variable int_of_text : string -> option Z.
Variable strip : string -> string.

Ltac unfold_panel :=
  unfold sys_exec, sys_step, click, deliver, update_vars, connect_debugger,
    stop_debugger, run_statements, stop_debugger_body, call_stop,
    send_cmd, on_connected, on_closed, show_error in *;
  cbn [fold_left] in *.

Local Abbreviation connect_debugger := (connect_debugger int_of_text strip).
Local Abbreviation update_vars := (update_vars json_dumps).
Local Abbreviation deliver := (deliver json_dumps).
Local Abbreviation row_of := (row_of json_dumps).
Local Abbreviation click := (click int_of_text strip).
Local Abbreviation sys_step := (sys_step json_loads json_dumps int_of_text strip).
Local Abbreviation sys_exec := (sys_exec json_loads json_dumps int_of_text strip).

Lemma add_rows : forall (members : list (string * json)) (p : panel),
  let p' := fold_left (fun p kv => addItem (row_of kv) p) members p in
  panel_widget p' = panel_widget p ++ map row_of members /\
  socket_thread p' = socket_thread p /\
  next_break_button p' = next_break_button p /\
  next_line_button p' = next_line_button p /\
  stop_button p' = stop_button p.
Proof.
  induction members as [|kv members IH]; intros p; cbn zeta; cbn [fold_left map].
  - rewrite app_nil_r. auto.
  - destruct (IH (addItem (row_of kv) p)) as (W & T & B1 & B2 & B3).
    rewrite W, T, B1, B2, B3. cbn. rewrite <- app_assoc. auto.
Qed.

(** C7. A read of a well-formed JSON object emits exactly one
    [vars_received], carrying the decoded document; its slot replaces the
    rows of the panel by one row per member of the document, in the
    document's order, whatever rows the panel showed before. *)
Theorem snapshot_replaces_display :
  forall (t : thread) (s : send_outcome) (data : bytes)
         (members : list (string * json)) (p : panel),
    looping t -> send_passes s t ->
    data <> [] -> json_loads data = inr (JObj members) ->
    let res := io json_loads (Tick s (RecvData data)) t in
    snd res = [EVarsReceived (JObj members)] /\
    count is_SnapshotReceived (snd res) = 1 /\
    panel_widget (deliver (EVarsReceived (JObj members)) p) = map row_of members /\
    socket_thread (deliver (EVarsReceived (JObj members)) p) = socket_thread p.
Proof.
  intros t s data members p L P N E res. subst res.
  rewrite tick_reads_data, E by assumption. cbn [fst snd].
  repeat split; unfold_panel;
    destruct (add_rows members (clear p)) as (W & T & _).
  - rewrite W. reflexivity.
  - rewrite T. reflexivity.
Qed.

(** C9. With a port text that is not an integer [connect_debugger] adds
    the diagnostic row and does nothing else: the worker reference and every
    other field of the panel are as before. *)
Theorem invalid_port_leaves_worker_untouched :
  forall (p : panel),
    int_of_text (port_input p) = None ->
    connect_debugger p = addItem "Error: Port must be an integer." p /\
    socket_thread (connect_debugger p) = socket_thread p /\
    panel_widget (connect_debugger p) =
      panel_widget p ++ ["Error: Port must be an integer."%string].
Proof.
  intros p H. unfold_panel. rewrite H. repeat split.
Qed.

(** C10. [stop_debugger] without a worker reference returns the panel as it
    is.  With a reference it runs two statements, in this order.  The first
    passes [STOP] to [send_cmd]: with the worker's [connected] flag set the
    bytes of [STOP] are appended to the worker's queue and [running] is not
    touched yet, otherwise the row saying so is added.  The second clears
    [running].  After both, the worker differs from before in its queue and
    its flag only.  The order shows when the worker's loop test falls between
    the two statements: the iteration still writes [STOP]. *)
Theorem stop_debugger_enqueues_then_stops :
  forall (p : panel),
    STOP = [x53; x54; x4f; x50; x0a] /\
    (socket_thread p = None -> stop_debugger p = p) /\
    (forall t : thread, socket_thread p = Some t ->
       let first := nth 0 stop_debugger_body (fun q => q) in
       let second := nth 1 stop_debugger_body (fun q => q) in
       List.length stop_debugger_body = 2 /\
       stop_debugger p = second (first p) /\
       first p =
         (if connected t
          then set_socket_thread
                 (Some (mkThread (host t) (port t) (socket t) (running t)
                          (connected t) (send_queue t ++ [STOP]) (state t))) p
          else addItem "Not connected." p) /\
       socket_thread (stop_debugger p) =
         Some (mkThread (host t) (port t) (socket t) false (connected t)
                 (send_queue t ++ (if connected t then [STOP] else []))
                 (state t)) /\
       panel_widget (stop_debugger p) =
         panel_widget p ++
         (if connected t then [] else ["Not connected."%string]) /\
       (forall r : recv_outcome,
          connected t = true -> looping t -> send_queue t = [] ->
          let between :=
            ui (sys_step (Worker (Tick SendOk r)) (mkSystem (first p) [])) in
          exists t2,
            socket_thread (second between) = Some t2 /\
            wire t2 = wire t ++ [STOP] /\ running t2 = false)).
Proof.
  intros p. split; [reflexivity|]. split.
  { intros T. unfold stop_debugger. now rewrite T. }
  intros t T first second. subst first second. cbn [nth stop_debugger_body].
  split; [reflexivity|].
  assert (D : stop_debugger p = call_stop (send_cmd STOP p)).
  { unfold stop_debugger, run_statements. rewrite T. reflexivity. }
  split; [exact D|].
  destruct t as [h pt sk rn cn q st].
  cbn [host port socket running connected send_queue state].
  assert (F : send_cmd STOP p =
              (if cn
               then set_socket_thread
                      (Some (mkThread h pt sk rn cn (q ++ [STOP]) st)) p
               else addItem "Not connected." p)).
  { unfold send_cmd. rewrite T. cbn. destruct cn; reflexivity. }
  split; [exact F|]. split; [|split].
  - rewrite D, F. unfold call_stop.
    destruct cn; cbn; rewrite ?T, ?app_nil_r; reflexivity.
  - rewrite D, F. unfold call_stop.
    destruct cn; cbn; rewrite ?T, ?app_nil_r; reflexivity.
  - intros r Ct L Q. subst cn q.
    assert (L1 : looping (mkThread h pt sk rn true [STOP] st)).
    { destruct L as (S & R & k & K). repeat split; try assumption. now exists k. }
    rewrite F. unfold sys_step. cbn [ui inbox socket_thread set_socket_thread app].
    rewrite (tick_reads json_loads SendOk r _ L1 (or_intror eq_refl)).
    destruct L as (S & R & k & K). cbn in S, R, K. subst st rn sk.
    destruct r as [[|b d]| |e]; try destruct (json_loads (b :: d));
      cbn; eexists; (split; [reflexivity|]); split; reflexivity.
Qed.


(** *** One worker at a time *)

(** While the panel holds a worker reference a connect is refused. *)
Lemma held_reference_refuses_connect : forall (p : panel) (prt : Z) (t : thread),
  int_of_text (port_input p) = Some prt -> socket_thread p = Some t ->
  connect_debugger p = addItem "Already connected." p.
Proof. intros p prt t H T. unfold_panel. now rewrite H, T. Qed.

(** The slot of [closed] drops the reference, and the next connect makes a
    new worker and starts it. *)
Lemma closed_permits_reconnect : forall (p : panel) (prt : Z),
  int_of_text (port_input p) = Some prt ->
  socket_thread (connect_debugger (deliver EClosed p)) =
  Some (start (new_thread (strip (host_input p)) prt)).
Proof. intros p prt H. unfold_panel. cbn. now rewrite H. Qed.

(** C2. A connect attempt on which [socket.create_connection] raises leaves
    the worker in [Failed] and its [error] signal is delivered, yet the panel
    still holds the reference: the next press of Connect is answered by
    the row saying it is already connected, and no new worker is made. *)
Theorem failed_connect_blocks_reconnect :
  forall (p : panel) (prt : Z) (e : string),
    int_of_text (port_input p) = Some prt -> socket_thread p = None ->
    let failed := mkThread (strip (host_input p)) prt None true false [] Failed in
    let s1 := sys_exec [Click ConnectButton;
                        Worker (Connect (ConnectRaises e));
                        Deliver] (mkSystem p []) in
    let s2 := sys_step (Click ConnectButton) s1 in
    inbox s1 = [] /\
    socket_thread (ui s1) = Some failed /\
    panel_widget (ui s1) =
      panel_widget p ++ ["Connecting..."%string;
                         ("Error: " ++ connection_failed e)%string] /\
    ui s2 = addItem "Already connected." (ui s1) /\
    socket_thread (ui s2) = Some failed.
Proof.
  intros p prt e H T failed s1 s2. subst s2 s1 failed.
  unfold_panel. cbn. rewrite H, T. cbn. rewrite H. cbn.
  rewrite <- app_assoc. repeat split.
Qed.



(** ** Further properties of the controller *)

Lemma consistent_ext : forall s s',
  inbox s' = inbox s -> buttons (ui s') = buttons (ui s) ->
  worker_view (ui s') = worker_view (ui s) ->
  consistent s -> consistent s'.
Proof.
  intros [p ib] [p' ib'] I B V. cbn in I, B, V. subst ib'.
  unfold consistent, worker_view in *. cbn [ui inbox].
  rewrite B.
  destruct (socket_thread p) as [t|], (socket_thread p') as [t'|];
    cbn in V; try discriminate; [|exact (fun H => H)].
  injection V as S C. rewrite S, C. exact (fun H => H).
Qed.

Lemma deliver_plain : forall ev p, plain ev = true ->
  socket_thread (deliver ev p) = socket_thread p /\
  buttons (deliver ev p) = buttons p.
Proof.
  intros [|v|msg|] p H; try discriminate; unfold_panel.
  - destruct v; try (split; reflexivity).
    destruct (add_rows members (clear p)) as (_ & T & B1 & B2 & B3).
    unfold buttons. rewrite T, B1, B2, B3. split; reflexivity.
  - split; reflexivity.
Qed.

Lemma send_cmd_view : forall cmd p,
  worker_view (send_cmd cmd p) = worker_view p /\
  buttons (send_cmd cmd p) = buttons p.
Proof.
  intros cmd p. unfold send_cmd, worker_view.
  destruct (socket_thread p) as [t|] eqn:T.
  - destruct (connected t); cbn; rewrite ?T; split; reflexivity.
  - cbn. rewrite T. split; reflexivity.
Qed.

Lemma stop_debugger_view : forall p,
  worker_view (stop_debugger p) = worker_view p /\
  buttons (stop_debugger p) = buttons p.
Proof.
  intros p. unfold stop_debugger, run_statements, stop_debugger_body, call_stop.
  cbn [fold_left].
  destruct (socket_thread p) as [t|] eqn:T; [|split; reflexivity].
  destruct (send_cmd_view STOP p) as (V & B).
  unfold worker_view in *.
  destruct (socket_thread (send_cmd STOP p)) as [t'|] eqn:T'.
  - cbn in *. rewrite <- V, <- B. split; reflexivity.
  - rewrite T'. split; assumption.
Qed.

Lemma forallb_plain_snoc : forall a b,
  forallb plain a = true -> forallb plain b = true ->
  forallb plain (a ++ b) = true.
Proof. intros a b A B. now rewrite forallb_app, A, B. Qed.

Lemma click_consistent : forall b s,
  consistent s -> consistent (mkSystem (click b (ui s)) (inbox s)).
Proof.
  intros b [p ib] H. cbn [ui inbox].
  destruct b; unfold click.
  - unfold connect_debugger.
    destruct (int_of_text (port_input p)) as [prt|];
      [destruct (socket_thread p) as [t|] eqn:T|].
    + apply (consistent_ext (mkSystem p ib));
        [reflexivity | reflexivity | reflexivity | exact H].
    + unfold consistent in *. cbn in *. rewrite T in H. exact H.
    + apply (consistent_ext (mkSystem p ib));
        [reflexivity | reflexivity | reflexivity | exact H].
  - destruct (next_break_button p); [|exact H].
    apply (consistent_ext (mkSystem p ib)); try reflexivity;
      try apply send_cmd_view; exact H.
  - destruct (next_line_button p); [|exact H].
    apply (consistent_ext (mkSystem p ib)); try reflexivity;
      try apply send_cmd_view; exact H.
  - destruct (stop_button p); [|exact H].
    apply (consistent_ext (mkSystem p ib)); try reflexivity;
      try apply stop_debugger_view; exact H.
Qed.

Lemma worker_consistent : forall a s,
  consistent s -> consistent (sys_step (Worker a) s).
Proof.
  intros a [p ib] H. unfold sys_step. cbn [ui inbox].
  destruct (socket_thread p) as [t|] eqn:T; [|exact H].
  destruct (io json_loads a t) as [t' evs] eqn:E.
  assert (E1 : fst (io json_loads a t) = t') by now rewrite E.
  assert (E2 : snd (io json_loads a t) = evs) by now rewrite E.
  unfold consistent in *. cbn [ui inbox socket_thread set_socket_thread] in *.
  change (buttons (set_socket_thread (Some t') p)) with (buttons p).
  rewrite T in H.
  destruct (state t) eqn:St.
  - contradiction.
  - destruct H as (I & B). subst ib. cbn [app].
    destruct (io_from_connecting json_loads a t St) as [N|[(S1 & C1 & V)|(S1 & msg & V)]].
    + rewrite N in E. injection E as <- <-. rewrite St. auto.
    + rewrite E1 in S1, C1. rewrite E2 in V. rewrite S1, V.
      split; [exact C1|]. left. now exists [].
    + rewrite E1 in S1. rewrite E2 in V. rewrite S1, V. auto.
  - destruct H as (C & D).
    destruct (io_from_connected json_loads a t St) as (C1 & [(S1 & P)|(S1 & mid & V & P)]);
      rewrite E1 in C1, S1; rewrite E2 in *; rewrite S1, C1;
      (split; [exact C|]).
    + destruct D as [(rest & I & Pr & B)|(Pi & B)].
      * left. exists (rest ++ evs). subst ib.
        split; [reflexivity|]. split; [now apply forallb_plain_snoc | exact B].
      * right. split; [now apply forallb_plain_snoc | exact B].
    + clear E2. subst evs. destruct D as [(rest & I & Pr & B)|(Pi & B)].
      * left. exists (rest ++ mid). subst ib. cbn [app].
        rewrite <- app_assoc.
        split; [reflexivity|]. split; [now apply forallb_plain_snoc | exact B].
      * right. exists (ib ++ mid). rewrite app_assoc.
        split; [reflexivity|]. split; [now apply forallb_plain_snoc | exact B].
  - rewrite (io_idle json_loads a t) in E by (right; left; exact St).
    injection E as <- <-. rewrite app_nil_r, St. exact H.
  - rewrite (io_idle json_loads a t) in E by (right; right; exact St).
    injection E as <- <-. rewrite app_nil_r, St. exact H.
Qed.


Lemma deliver_consistent : forall s,
  consistent s -> consistent (sys_step Deliver s).
Proof.
  intros [p ib] H. unfold sys_step. cbn [ui inbox].
  destruct ib as [|ev rest]; [exact H|].
  unfold consistent in *. cbn [ui inbox] in *.
  destruct (socket_thread p) as [t|] eqn:T; [|destruct H; discriminate].
  destruct (state t) eqn:St.
  - contradiction.
  - destruct H; discriminate.
  - destruct H as (C & [(rest' & I & Pr & B)|(Pi & B)]).
    + injection I as -> ->.
      change (socket_thread (deliver EConnectedOk p)) with (socket_thread p).
      rewrite T, St. split; [exact C|]. right. split; [exact Pr | reflexivity].
    + cbn [forallb] in Pi. apply andb_prop in Pi. destruct Pi as (Pe & Pr).
      destruct (deliver_plain ev p Pe) as (T1 & B1).
      rewrite T1, T, St, B1. split; [exact C|]. right. split; assumption.
  - destruct H as (C & [(mid & I & Pm & B)|(mid & I & Pm & B)]).
    + injection I as -> ->.
      change (socket_thread (deliver EConnectedOk p)) with (socket_thread p).
      rewrite T, St. split; [exact C|]. right. exists mid. repeat split; assumption.
    + destruct mid as [|m mid]; cbn [app] in I; injection I as -> ->.
      * cbn. auto.
      * cbn [forallb] in Pm. apply andb_prop in Pm. destruct Pm as (Pe & Pr).
        destruct (deliver_plain m p Pe) as (T1 & B1).
        rewrite T1, T, St, B1. split; [exact C|]. right. exists mid.
        repeat split; assumption.
  - destruct H as (Pi & B).
    cbn [forallb] in Pi. apply andb_prop in Pi. destruct Pi as (Pe & Pr).
    destruct (deliver_plain ev p Pe) as (T1 & B1).
    rewrite T1, T, St, B1. split; assumption.
Qed.

Lemma sys_step_consistent : forall a s,
  consistent s -> consistent (sys_step a s).
Proof.
  intros [b|a|] s H.
  - apply (click_consistent b s H).
  - apply worker_consistent, H.
  - apply deliver_consistent, H.
Qed.

Lemma sys_exec_consistent : forall acts s,
  consistent s -> consistent (sys_exec acts s).
Proof.
  induction acts as [|a acts IH]; intros s H; [exact H|].
  unfold sys_exec in *. cbn [fold_left]. apply IH, sys_step_consistent, H.
Qed.

Lemma new_system_consistent : consistent new_system.
Proof. split; reflexivity. Qed.


(** X11. In every state the system can reach from a new panel, the three
    gated buttons are enabled only together and only while the panel holds a
    worker whose [connected] flag is set; a press of any of them then hands
    its command to that worker, and the row saying that there is no
    connection is not produced. *)
Theorem enabled_buttons_reach_worker :
  forall (acts : list sys_action),
    let s := sys_exec acts new_system in
    next_break_button (ui s) = true \/ next_line_button (ui s) = true \/
    stop_button (ui s) = true ->
    exists t,
      socket_thread (ui s) = Some t /\ connected t = true /\
      buttons (ui s) = (true, true, true) /\
      click NextBreakButton (ui s) =
        set_socket_thread (Some (enqueue_command NEXT t)) (ui s) /\
      click NextLineButton (ui s) =
        set_socket_thread (Some (enqueue_command STEP t)) (ui s) /\
      click StopButton (ui s) =
        set_socket_thread (Some (stop (enqueue_command STOP t))) (ui s).
Proof.
  intros acts s H.
  assert (C : consistent s) by apply sys_exec_consistent, new_system_consistent.
  destruct s as [p ib]. cbn [ui] in *. unfold consistent in C. cbn [ui inbox] in C.
  assert (Off : buttons p = (false, false, false) -> False).
  { unfold buttons. intros B. injection B as B1 B2 B3.
    rewrite B1, B2, B3 in H. destruct H as [H|[H|H]]; discriminate. }
  destruct (socket_thread p) as [t|] eqn:T; [|destruct C as (_ & B); destruct (Off B)].
  assert (G : connected t = true /\ buttons p = (true, true, true)).
  { destruct (state t).
    - contradiction.
    - destruct C as (_ & B); destruct (Off B).
    - destruct C as (Ct & [(rest & _ & _ & B)|(_ & B)]); [destruct (Off B)|auto].
    - destruct C as (Ct & [(mid & _ & _ & B)|(mid & _ & _ & B)]); [destruct (Off B)|auto].
    - destruct C as (_ & B); destruct (Off B). }
  destruct G as (Ct & B). exists t.
  unfold buttons in B. injection B as B1 B2 B3.
  repeat split; try assumption; try (unfold buttons; congruence);
    unfold_panel; rewrite ?B1, ?B2, ?B3, T, Ct; cbn; rewrite ?T; reflexivity.
Qed.

(** X12. In every reachable state in which the panel holds no worker, no
    signal is waiting for delivery and the gated buttons are disabled: a new
    worker never receives the signals of an earlier one. *)
Theorem no_worker_no_pending_signal :
  forall (acts : list sys_action),
    let s := sys_exec acts new_system in
    socket_thread (ui s) = None ->
    inbox s = [] /\ buttons (ui s) = (false, false, false).
Proof.
  intros acts s T.
  assert (C : consistent s) by apply sys_exec_consistent, new_system_consistent.
  unfold consistent in C. rewrite T in C. exact C.
Qed.

Lemma failed_stays : forall a s t,
  consistent s -> socket_thread (ui s) = Some t -> state t = Failed ->
  exists t', socket_thread (ui (sys_step a s)) = Some t' /\ state t' = Failed.
Proof.
  intros a [p ib] t C T St. cbn [ui] in T.
  unfold consistent in C. cbn [ui inbox] in C. rewrite T, St in C.
  destruct C as (Pi & B). unfold buttons in B. injection B as B1 B2 B3.
  destruct a as [b|a|]; unfold sys_step; cbn [ui inbox].
  - exists t. split; [|exact St].
    destruct b; unfold_panel; rewrite ?B1, ?B2, ?B3; try exact T.
    destruct (int_of_text (port_input p)); rewrite ?T; exact T.
  - rewrite T. rewrite (io_idle json_loads a t) by (right; right; exact St).
    exists t. split; [reflexivity | exact St].
  - destruct ib as [|ev rest]; [exists t; split; assumption|].
    cbn [forallb] in Pi. apply andb_prop in Pi. destruct Pi as (Pe & _).
    destruct (deliver_plain ev p Pe) as (T1 & _).
    exists t. cbn [ui]. rewrite T1. split; assumption.
Qed.

(** X13. A worker whose connect failed is never released: from a reachable
    state in which the panel holds a worker in [Failed], whatever the user
    presses, the worker's thread does and the event loop delivers, the panel
    still holds a worker in [Failed] and the gated buttons stay disabled. *)
Theorem failed_worker_is_never_released :
  forall (acts more : list sys_action) (t : thread),
    let s := sys_exec acts new_system in
    socket_thread (ui s) = Some t -> state t = Failed ->
    exists t',
      socket_thread (ui (sys_exec more s)) = Some t' /\ state t' = Failed /\
      buttons (ui (sys_exec more s)) = (false, false, false).
Proof.
  intros acts more t s T St.
  assert (C : consistent s) by apply sys_exec_consistent, new_system_consistent.
  clearbody s. clear acts. revert s t T St C.
  induction more as [|a more IH]; intros s t T St C.
  - exists t. cbn. repeat split; try assumption.
    unfold consistent in C. rewrite T, St in C. apply C.
  - destruct (failed_stays a s t C T St) as (t1 & T1 & S1).
    apply (IH (sys_step a s) t1 T1 S1). apply sys_step_consistent, C.
Qed.

Lemma deliveries_end_with_closed : forall (mid : list event) (p : panel),
  let s' := sys_exec (repeat Deliver (List.length (mid ++ [EClosed])))
              (mkSystem p (mid ++ [EClosed])) in
  socket_thread (ui s') = None /\ inbox s' = [] /\
  buttons (ui s') = (false, false, false).
Proof.
  induction mid as [|m mid IH]; intros p; cbn zeta.
  - cbn. repeat split.
  - cbn [app List.length repeat]. unfold sys_exec in *. cbn [fold_left].
    apply (IH (deliver m p)).
Qed.

(** X14. A worker that has left its loop is released by delivery alone:
    from a reachable state in which the panel holds a worker in [Closed],
    delivering the signals that wait ends with no worker reference, nothing
    left to deliver and the gated buttons disabled. *)
Theorem closed_worker_is_released_by_delivery :
  forall (acts : list sys_action) (t : thread),
    let s := sys_exec acts new_system in
    socket_thread (ui s) = Some t -> state t = Closed ->
    let s' := sys_exec (repeat Deliver (List.length (inbox s))) s in
    socket_thread (ui s') = None /\ inbox s' = [] /\
    buttons (ui s') = (false, false, false).
Proof.
  intros acts t s T St.
  assert (C : consistent s) by apply sys_exec_consistent, new_system_consistent.
  destruct s as [p ib]. cbn [ui inbox] in *.
  unfold consistent in C. cbn [ui inbox] in C. rewrite T, St in C.
  destruct C as (_ & [(mid & -> & _)|(mid & -> & _)]).
  - apply (deliveries_end_with_closed (EConnectedOk :: mid) p).
  - apply (deliveries_end_with_closed mid p).
Qed.



Lemma clear_add_rows : forall (members : list (string * json)) (p : panel),
  fold_left (fun p kv => addItem (row_of kv) p) members (clear p) =
  mkPanel (host_input p) (port_input p) (map row_of members)
    (next_break_button p) (next_line_button p) (stop_button p) (socket_thread p).
Proof.
  intros members p.
  assert (G : forall ms q,
             fold_left (fun p kv => addItem (row_of kv) p) ms q =
             mkPanel (host_input q) (port_input q) (panel_widget q ++ map row_of ms)
               (next_break_button q) (next_line_button q) (stop_button q)
               (socket_thread q)).
  { induction ms as [|kv ms IH]; intros q; cbn [fold_left map].
    - rewrite app_nil_r. destruct q; reflexivity.
    - rewrite IH. cbn. rewrite <- app_assoc. reflexivity. }
  rewrite G. reflexivity.
Qed.

(** X16. The last snapshot wins: showing an object after another leaves
    the panel exactly as showing the second alone, and showing the same
    object twice is the same as showing it once; the input fields, the
    buttons and the worker reference are not touched. *)
Theorem last_snapshot_wins :
  forall (first second : list (string * json)) (p : panel),
    update_vars (JObj second) (update_vars (JObj first) p) =
      update_vars (JObj second) p /\
    update_vars (JObj second) p =
      mkPanel (host_input p) (port_input p) (map row_of second)
        (next_break_button p) (next_line_button p) (stop_button p)
        (socket_thread p).
Proof.
  intros first second p. unfold_panel.
  rewrite !clear_add_rows. split; reflexivity.
Qed.

(** X17. A command issued after the worker has left its loop but before
    [closed] is delivered is lost without a word: in a reachable state whose
    worker is in [Closed], [send_cmd] enqueues the command and adds no row,
    and the command is never written, whatever follows. *)
Theorem command_after_loop_exit_is_lost :
  forall (acts : list sys_action) (t : thread) (cmd : bytes)
         (more : list action),
    let s := sys_exec acts new_system in
    socket_thread (ui s) = Some t -> state t = Closed ->
    send_cmd cmd (ui s) =
      set_socket_thread (Some (enqueue_command cmd t)) (ui s) /\
    panel_widget (send_cmd cmd (ui s)) = panel_widget (ui s) /\
    wire (fst (exec json_loads more (enqueue_command cmd t))) = wire t /\
    snd (exec json_loads more (enqueue_command cmd t)) = [].
Proof.
  intros acts t cmd more s T St.
  assert (C : consistent s) by apply sys_exec_consistent, new_system_consistent.
  unfold consistent in C. rewrite T, St in C. destruct C as (Ct & _).
  assert (E : send_cmd cmd (ui s) =
              set_socket_thread (Some (enqueue_command cmd t)) (ui s)).
  { unfold send_cmd. rewrite T, Ct. reflexivity. }
  split; [exact E|]. split; [rewrite E; reflexivity|].
  assert (I : idle (enqueue_command cmd t)) by (right; left; exact St).
  destruct (exec_idle json_loads more _ I) as (Ev & K & _).
  split; [|exact Ev].
  unfold wire. rewrite K. reflexivity.
Qed.

End PanelProperties.

(** ** The theorems at concrete inputs *)

Lemma in_loop_looping : looping Sample.in_loop.
Proof. repeat split. exists fresh_sock. reflexivity. Defined.

Lemma connect_failure_emits_one_error_witness :
  state Sample.started = Connecting /\
  snd (run Sample.json_loads (ConnectRaises "refused")
         [(SendOk, RecvTimeout); (SendOk, RecvData Sample.doc_x1)]
         Sample.started)
  = [EError "Connection failed: refused"].
Proof.
  split; [reflexivity|].
  apply (connect_failure_emits_one_error Sample.json_loads Sample.started
           "refused" [(SendOk, RecvTimeout); (SendOk, RecvData Sample.doc_x1)]).
  reflexivity.
Defined.

Lemma decode_error_keeps_loop_running_witness :
  Sample.json_loads Sample.truncated
    = inl "Expecting value: line 1 column 1 (char 0)" /\
  snd (io Sample.json_loads (Tick SendOk (RecvData Sample.truncated)) Sample.in_loop)
    = [EError "JSON decode error: Expecting value: line 1 column 1 (char 0)"] /\
  snd (exec Sample.json_loads
         (iterations (repeat (SendOk, RecvTimeout) 3 ++ [(SendOk, RecvData Sample.doc_x1)]))
         (fst (io Sample.json_loads (Tick SendOk (RecvData Sample.truncated))
                 Sample.in_loop)))
    = [EVarsReceived (JObj [("x", JInt 1)])].
Proof.
  split; [reflexivity|].
  pose proof (decode_error_keeps_loop_running Sample.json_loads Sample.in_loop
                SendOk Sample.truncated Sample.doc_x1
                "Expecting value: line 1 column 1 (char 0)"
                (JObj [("x", JInt 1)]) 3
                in_loop_looping (or_intror eq_refl)
                ltac:(discriminate) eq_refl ltac:(discriminate) eq_refl) as H.
  cbv zeta in H. split; [apply H | apply H].
Defined.

Lemma non_object_json_is_emitted_as_snapshot_witness :
  Sample.json_loads Sample.doc_arr1 = inr (JArr [JInt 1]) /\
  is_object (JArr [JInt 1]) = false /\
  snd (io Sample.json_loads (Tick SendOk (RecvData Sample.doc_arr1)) Sample.in_loop)
    = [EVarsReceived (JArr [JInt 1])].
Proof.
  split; [reflexivity|]. split; [reflexivity|].
  apply (non_object_json_is_emitted_as_snapshot Sample.json_loads Sample.in_loop
           SendOk Sample.doc_arr1 (JArr [JInt 1])
           in_loop_looping (or_intror eq_refl)
           ltac:(discriminate) eq_refl eq_refl).
Defined.

Lemma stop_closes_once_and_is_idempotent_witness :
  state Sample.in_loop = Connected /\ idle Sample.finished /\
  snd (exec Sample.json_loads
         (Call CallStop :: map Call [CallEnqueue STOP; CallStop]
            ++ Io (Tick SendOk (RecvData Sample.doc_x1)) :: [Call CallStop])
         Sample.in_loop) = [EClosed] /\
  snd (exec Sample.json_loads [Call CallStop; Io (Tick SendOk RecvTimeout)]
         Sample.finished) = [].
Proof.
  split; [reflexivity|]. split; [right; left; reflexivity|].
  pose proof (stop_closes_once_and_is_idempotent Sample.json_loads
                Sample.in_loop Sample.finished
                [Io (Tick SendOk RecvTimeout)] [Call CallStop]
                [Io (Tick SendOk RecvTimeout)] [CallEnqueue STOP; CallStop]
                SendOk (RecvData Sample.doc_x1)
                eq_refl (or_intror (or_introl eq_refl))) as H.
  cbv zeta in H. split; apply H.
Defined.

Lemma commands_reach_wire_in_fifo_order_witness :
  looping Sample.in_loop /\ send_queue Sample.in_loop = [] /\
  wire (fst (exec Sample.json_loads
               (iterations [(SendOk, RecvTimeout); (SendOk, RecvTimeout)])
               (fold_left (fun u c => enqueue_command c u) [STEP; STEP]
                  Sample.in_loop)))
    = wire Sample.in_loop ++ [STEP; STEP].
Proof.
  split; [exact in_loop_looping|]. split; [reflexivity|].
  pose proof (commands_reach_wire_in_fifo_order Sample.json_loads Sample.in_loop
                [STEP; STEP] [(SendOk, RecvTimeout); (SendOk, RecvTimeout)]
                in_loop_looping eq_refl) as H.
  cbv zeta in H. destruct H as (_ & _ & _ & H & _).
  apply H; [reflexivity | apply le_n].
Defined.

Lemma snapshot_replaces_display_witness :
  Sample.json_loads Sample.doc_x1 = inr (JObj [("x", JInt 1)]) /\
  panel_widget
    (deliver Sample.json_dumps (EVarsReceived (JObj [("x", JInt 1)]))
       (addItem "y: 2" (addItem "Connected to debugger." new_panel)))
    = map (row_of Sample.json_dumps) [("x", JInt 1)].
Proof.
  split; [reflexivity|].
  apply (snapshot_replaces_display Sample.json_loads Sample.json_dumps
           Sample.in_loop SendOk Sample.doc_x1 [("x", JInt 1)]
           (addItem "y: 2" (addItem "Connected to debugger." new_panel))
           in_loop_looping (or_intror eq_refl) ltac:(discriminate) eq_refl).
Defined.

Lemma invalid_port_leaves_worker_untouched_witness :
  Sample.int_of_text (port_input (mkPanel "127.0.0.1" "50o0" [] false false false None))
    = None /\
  socket_thread
    (connect_debugger Sample.int_of_text Sample.strip
       (mkPanel "127.0.0.1" "50o0" [] false false false None)) = None.
Proof.
  split; [reflexivity|].
  apply (invalid_port_leaves_worker_untouched Sample.int_of_text Sample.strip
           (mkPanel "127.0.0.1" "50o0" [] false false false None) eq_refl).
Defined.

Lemma failed_connect_blocks_reconnect_witness :
  Sample.int_of_text (port_input new_panel) = Some 5000%Z /\
  socket_thread new_panel = None /\
  panel_widget
    (ui (sys_exec Sample.json_loads Sample.json_dumps Sample.int_of_text Sample.strip
           [Click ConnectButton; Worker (Connect (ConnectRaises "refused"));
            Deliver; Click ConnectButton] new_system))
    = ["Connecting..."; "Error: Connection failed: refused"; "Already connected."]%string.
Proof.
  split; [reflexivity|]. split; [reflexivity|].
  pose proof (failed_connect_blocks_reconnect Sample.json_loads Sample.json_dumps
                Sample.int_of_text Sample.strip new_panel 5000%Z "refused"
                eq_refl eq_refl) as H.
  cbv zeta in H. destruct H as (_ & _ & W & U & _).
  change (panel_widget
            (ui (sys_step Sample.json_loads Sample.json_dumps Sample.int_of_text
                   Sample.strip (Click ConnectButton)
                   (sys_exec Sample.json_loads Sample.json_dumps Sample.int_of_text
                      Sample.strip
                      [Click ConnectButton; Worker (Connect (ConnectRaises "refused"));
                       Deliver] (mkSystem new_panel []))))
          = ["Connecting..."; "Error: Connection failed: refused";
             "Already connected."]%string).
  rewrite U. cbn [panel_widget addItem]. rewrite W. reflexivity.
Defined.

(** ** The further properties at concrete inputs *)

Lemma send_failure_is_fatal_witness :
  looping (enqueue_command STEP Sample.in_loop) /\
  send_queue (enqueue_command STEP Sample.in_loop) = [STEP] /\
  snd (io Sample.json_loads (Tick (SendRaises "Broken pipe") (RecvData Sample.doc_x1))
         (enqueue_command STEP Sample.in_loop))
    = [EError "Send error: Broken pipe"; EClosed].
Proof.
  assert (L : looping (enqueue_command STEP Sample.in_loop))
    by (repeat split; exists fresh_sock; reflexivity).
  split; [exact L|]. split; [reflexivity|].
  apply (send_failure_is_fatal Sample.json_loads
           (enqueue_command STEP Sample.in_loop) "Broken pipe"
           (RecvData Sample.doc_x1) STEP [] L eq_refl).
Defined.

Lemma recv_failure_is_fatal_witness :
  looping Sample.in_loop /\ send_passes SendOk Sample.in_loop /\
  snd (io Sample.json_loads (Tick SendOk (RecvRaises "Connection reset by peer"))
         Sample.in_loop)
    = [EError "Socket error: Connection reset by peer"; EClosed].
Proof.
  split; [exact in_loop_looping|]. split; [right; reflexivity|].
  apply (recv_failure_is_fatal Sample.json_loads Sample.in_loop SendOk
           "Connection reset by peer" in_loop_looping (or_intror eq_refl)).
Defined.

Lemma settimeout_failure_leaves_socket_open_witness :
  state Sample.started = Connecting /\
  socket_closed
    (fst (exec Sample.json_loads
            [Io (Connect (SetTimeoutRaises "Bad file descriptor"));
             Io (Tick SendOk RecvTimeout); Call CallStop]
            Sample.started)) = false.
Proof.
  split; [reflexivity|].
  apply (settimeout_failure_leaves_socket_open Sample.json_loads Sample.started
           "Bad file descriptor" [Io (Tick SendOk RecvTimeout); Call CallStop]
           eq_refl).
Defined.

Lemma idle_worker_is_inert_witness :
  idle Sample.finished /\
  snd (exec Sample.json_loads
         [Call (CallEnqueue STEP); Io (Tick SendOk (RecvData Sample.doc_x1));
          Call CallStop]
         Sample.finished) = [].
Proof.
  split; [right; left; reflexivity|].
  apply (idle_worker_is_inert Sample.json_loads Sample.finished
           [Call (CallEnqueue STEP); Io (Tick SendOk (RecvData Sample.doc_x1));
            Call CallStop]
           (or_intror (or_introl eq_refl))).
Defined.

Lemma worker_trace_follows_life_cycle_witness :
  state Sample.started = Connecting /\
  lifecycle_trace
    (snd (exec Sample.json_loads
            [Io (Connect ConnectOk);
             Io (Tick SendOk (RecvData Sample.doc_x1));
             Io (Tick SendOk (RecvData Sample.truncated));
             Call CallStop;
             Io (Tick SendOk RecvTimeout)]
            Sample.started)) = true.
Proof.
  split; [reflexivity|].
  apply (worker_trace_follows_life_cycle Sample.json_loads Sample.started
           [Io (Connect ConnectOk);
            Io (Tick SendOk (RecvData Sample.doc_x1));
            Io (Tick SendOk (RecvData Sample.truncated));
            Call CallStop;
            Io (Tick SendOk RecvTimeout)]
           eq_refl).
Defined.

Lemma queue_is_accounted_for_witness :
  state Sample.in_loop = Connected /\
  exists lost,
    List.length lost <= 1 /\
    wire (fst (exec Sample.json_loads
                 [Call (CallEnqueue NEXT); Io (Tick SendOk RecvTimeout);
                  Call (CallEnqueue STEP); Io (Tick (SendRaises "Broken pipe") RecvTimeout);
                  Call (CallEnqueue STOP)]
                 Sample.in_loop))
      ++ lost
      ++ send_queue (fst (exec Sample.json_loads
                 [Call (CallEnqueue NEXT); Io (Tick SendOk RecvTimeout);
                  Call (CallEnqueue STEP); Io (Tick (SendRaises "Broken pipe") RecvTimeout);
                  Call (CallEnqueue STOP)]
                 Sample.in_loop))
    = [NEXT; STEP; STOP].
Proof.
  split; [reflexivity|].
  apply (queue_is_accounted_for Sample.json_loads Sample.in_loop
           [Call (CallEnqueue NEXT); Io (Tick SendOk RecvTimeout);
            Call (CallEnqueue STEP); Io (Tick (SendRaises "Broken pipe") RecvTimeout);
            Call (CallEnqueue STOP)]
           eq_refl).
Defined.

Lemma commands_enqueued_while_connecting_are_sent_witness :
  state Sample.started = Connecting /\ running Sample.started = true /\
  send_queue Sample.started = [] /\
  wire (fst (exec Sample.json_loads
               (map (fun c => Call (CallEnqueue c)) [NEXT; STEP]
                  ++ Io (Connect ConnectOk)
                  :: iterations [(SendOk, RecvTimeout); (SendOk, RecvTimeout)])
               Sample.started))
    = [NEXT; STEP].
Proof.
  split; [reflexivity|]. split; [reflexivity|]. split; [reflexivity|].
  apply (commands_enqueued_while_connecting_are_sent Sample.json_loads
           Sample.started [NEXT; STEP]
           [(SendOk, RecvTimeout); (SendOk, RecvTimeout)]
           eq_refl eq_refl eq_refl eq_refl).
Defined.

Lemma nothing_is_written_after_stop_witness :
  state (enqueue_command STOP Sample.in_loop) = Connected /\
  wire (fst (exec Sample.json_loads
               [Call CallStop; Io (Tick SendOk RecvTimeout);
                Io (Tick SendOk RecvTimeout)]
               (enqueue_command STOP Sample.in_loop)))
    = [].
Proof.
  split; [reflexivity|].
  apply (nothing_is_written_after_stop Sample.json_loads
           (enqueue_command STOP Sample.in_loop)
           [Io (Tick SendOk RecvTimeout); Io (Tick SendOk RecvTimeout)]
           eq_refl).
Defined.

Lemma stop_while_connecting_closes_at_first_test_witness :
  state Sample.started = Connecting /\
  snd (exec Sample.json_loads
         (Call CallStop :: map Call [CallEnqueue STEP]
            ++ Io (Connect ConnectOk) :: map Call []
            ++ Io (Tick SendOk (RecvData Sample.doc_x1)) :: [])
         Sample.started)
    = [EConnectedOk; EClosed].
Proof.
  split; [reflexivity|].
  apply (stop_while_connecting_closes_at_first_test Sample.json_loads
           Sample.started [CallEnqueue STEP] [] SendOk
           (RecvData Sample.doc_x1) [] eq_refl).
Defined.

Lemma socket_is_closed_exactly_when_loop_exits_witness :
  state Sample.in_loop = Connected /\
  socket Sample.in_loop = Some fresh_sock /\ is_closed fresh_sock = false /\
  ((state (fst (exec Sample.json_loads
                  [Io (Tick SendOk RecvTimeout); Call CallStop;
                   Io (Tick SendOk RecvTimeout)] Sample.in_loop)) = Connected /\
    socket_closed (fst (exec Sample.json_loads
                  [Io (Tick SendOk RecvTimeout); Call CallStop;
                   Io (Tick SendOk RecvTimeout)] Sample.in_loop)) = false) \/
   (state (fst (exec Sample.json_loads
                  [Io (Tick SendOk RecvTimeout); Call CallStop;
                   Io (Tick SendOk RecvTimeout)] Sample.in_loop)) = Closed /\
    socket_closed (fst (exec Sample.json_loads
                  [Io (Tick SendOk RecvTimeout); Call CallStop;
                   Io (Tick SendOk RecvTimeout)] Sample.in_loop)) = true)).
Proof.
  split; [reflexivity|]. split; [reflexivity|]. split; [reflexivity|].
  apply (socket_is_closed_exactly_when_loop_exits Sample.json_loads
           Sample.in_loop fresh_sock
           [Io (Tick SendOk RecvTimeout); Call CallStop;
            Io (Tick SendOk RecvTimeout)]
           eq_refl eq_refl eq_refl).
Defined.

Lemma enabled_buttons_reach_worker_witness :
  stop_button
    (ui (sys_exec Sample.json_loads Sample.json_dumps Sample.int_of_text Sample.strip
           [Click ConnectButton; Worker (Connect ConnectOk); Deliver] new_system))
    = true /\
  exists t,
    socket_thread
      (ui (sys_exec Sample.json_loads Sample.json_dumps Sample.int_of_text Sample.strip
             [Click ConnectButton; Worker (Connect ConnectOk); Deliver] new_system))
      = Some t /\
    connected t = true.
Proof.
  split; [reflexivity|].
  destruct (enabled_buttons_reach_worker Sample.json_loads Sample.json_dumps
              Sample.int_of_text Sample.strip
              [Click ConnectButton; Worker (Connect ConnectOk); Deliver]
              (or_intror (or_intror eq_refl))) as (t & T & C & _).
  exists t. split; assumption.
Defined.

Lemma no_worker_no_pending_signal_witness :
  socket_thread
    (ui (sys_exec Sample.json_loads Sample.json_dumps Sample.int_of_text Sample.strip
           [Click ConnectButton; Worker (Connect ConnectOk);
            Worker (Tick SendOk (RecvRaises "Connection reset by peer"));
            Deliver; Deliver; Deliver] new_system))
    = None /\
  inbox
    (sys_exec Sample.json_loads Sample.json_dumps Sample.int_of_text Sample.strip
       [Click ConnectButton; Worker (Connect ConnectOk);
        Worker (Tick SendOk (RecvRaises "Connection reset by peer"));
        Deliver; Deliver; Deliver] new_system)
    = [].
Proof.
  split; [reflexivity|].
  apply (no_worker_no_pending_signal Sample.json_loads Sample.json_dumps
           Sample.int_of_text Sample.strip
           [Click ConnectButton; Worker (Connect ConnectOk);
            Worker (Tick SendOk (RecvRaises "Connection reset by peer"));
            Deliver; Deliver; Deliver]
           eq_refl).
Defined.

Lemma failed_worker_is_never_released_witness :
  socket_thread
    (ui (sys_exec Sample.json_loads Sample.json_dumps Sample.int_of_text Sample.strip
           [Click ConnectButton; Worker (Connect (ConnectRaises "refused"))]
           new_system))
    = Some (mkThread "127.0.0.1" 5000 None true false [] Failed) /\
  exists t',
    socket_thread
      (ui (sys_exec Sample.json_loads Sample.json_dumps Sample.int_of_text Sample.strip
             [Deliver; Click ConnectButton; Click StopButton;
              Worker (Tick SendOk RecvTimeout)]
             (sys_exec Sample.json_loads Sample.json_dumps Sample.int_of_text
                Sample.strip
                [Click ConnectButton; Worker (Connect (ConnectRaises "refused"))]
                new_system)))
      = Some t' /\
    state t' = Failed.
Proof.
  split; [reflexivity|].
  destruct (failed_worker_is_never_released Sample.json_loads Sample.json_dumps
              Sample.int_of_text Sample.strip
              [Click ConnectButton; Worker (Connect (ConnectRaises "refused"))]
              [Deliver; Click ConnectButton; Click StopButton;
               Worker (Tick SendOk RecvTimeout)]
              (mkThread "127.0.0.1" 5000 None true false [] Failed)
              eq_refl eq_refl) as (t' & T & S & _).
  exists t'. split; assumption.
Defined.

Lemma closed_worker_is_released_by_delivery_witness :
  socket_thread
    (ui (sys_exec Sample.json_loads Sample.json_dumps Sample.int_of_text Sample.strip
           [Click ConnectButton; Worker (Connect ConnectOk);
            Worker (Tick SendOk (RecvRaises "Connection reset by peer"))]
           new_system))
    = Some (mkThread "127.0.0.1" 5000 (Some (mkSock [] true)) true true [] Closed) /\
  socket_thread
    (ui (sys_exec Sample.json_loads Sample.json_dumps Sample.int_of_text Sample.strip
           (repeat Deliver 3)
           (sys_exec Sample.json_loads Sample.json_dumps Sample.int_of_text
              Sample.strip
              [Click ConnectButton; Worker (Connect ConnectOk);
               Worker (Tick SendOk (RecvRaises "Connection reset by peer"))]
              new_system)))
    = None.
Proof.
  split; [reflexivity|].
  apply (closed_worker_is_released_by_delivery Sample.json_loads Sample.json_dumps
           Sample.int_of_text Sample.strip
           [Click ConnectButton; Worker (Connect ConnectOk);
            Worker (Tick SendOk (RecvRaises "Connection reset by peer"))]
           (mkThread "127.0.0.1" 5000 (Some (mkSock [] true)) true true [] Closed)
           eq_refl eq_refl).
Defined.


Lemma command_after_loop_exit_is_lost_witness :
  socket_thread
    (ui (sys_exec Sample.json_loads Sample.json_dumps Sample.int_of_text Sample.strip
           [Click ConnectButton; Worker (Connect ConnectOk); Deliver;
            Worker (Tick SendOk (RecvRaises "Connection reset by peer"))]
           new_system))
    = Some (mkThread "127.0.0.1" 5000 (Some (mkSock [] true)) true true [] Closed) /\
  panel_widget
    (click Sample.int_of_text Sample.strip NextLineButton
       (ui (sys_exec Sample.json_loads Sample.json_dumps Sample.int_of_text
              Sample.strip
              [Click ConnectButton; Worker (Connect ConnectOk); Deliver;
               Worker (Tick SendOk (RecvRaises "Connection reset by peer"))]
              new_system)))
    = ["Connecting..."; "Connected to debugger."]%string.
Proof.
  split; [reflexivity|].
  destruct (command_after_loop_exit_is_lost Sample.json_loads Sample.json_dumps
              Sample.int_of_text Sample.strip
              [Click ConnectButton; Worker (Connect ConnectOk); Deliver;
               Worker (Tick SendOk (RecvRaises "Connection reset by peer"))]
              (mkThread "127.0.0.1" 5000 (Some (mkSock [] true)) true true [] Closed)
              STEP [Io (Tick SendOk RecvTimeout)] eq_refl eq_refl) as (_ & W & _).
  exact W.
Defined.

Lemma stop_debugger_enqueues_then_stops_witness :
  socket_thread (set_socket_thread (Some Sample.in_loop) new_panel)
    = Some Sample.in_loop /\
  connected Sample.in_loop = true /\ looping Sample.in_loop /\
  send_queue Sample.in_loop = [] /\
  socket_thread (stop_debugger (set_socket_thread (Some Sample.in_loop) new_panel))
    = Some (mkThread "127.0.0.1" 5000 (Some fresh_sock) false true [STOP] Connected) /\
  exists t2,
    socket_thread
      (call_stop
         (ui (sys_step Sample.json_loads Sample.json_dumps Sample.int_of_text
                Sample.strip (Worker (Tick SendOk RecvTimeout))
                (mkSystem
                   (send_cmd STOP (set_socket_thread (Some Sample.in_loop) new_panel))
                   []))))
      = Some t2 /\
    wire t2 = [STOP] /\ running t2 = false.
Proof.
  split; [reflexivity|]. split; [reflexivity|]. split; [exact in_loop_looping|].
  split; [reflexivity|].
  destruct (stop_debugger_enqueues_then_stops Sample.json_loads Sample.json_dumps
              Sample.int_of_text Sample.strip
              (set_socket_thread (Some Sample.in_loop) new_panel))
    as (_ & _ & H).
  destruct (H Sample.in_loop eq_refl) as (_ & _ & _ & A & _ & B).
  split; [exact A|].
  exact (B RecvTimeout eq_refl in_loop_looping eq_refl).
Defined.
